(** * ai-translate: a shallow embedding of src/src/index.ts

    Strings are modelled as Stdlib [string]s over ASCII characters.  The
    two watched files, their in-memory [FileState] snapshots, the
    [isProcessing] gate, the pending [setTimeout] releases of the gate and
    the client requests awaiting an answer form the [World]; the
    change-handling code runs in a small state-and-exception monad so that
    its [try]/[catch]/[finally] blocks are translated as written. *)

From Stdlib Require Import String Ascii ZArith Bool.
From stdpp Require Import base list gmap strings.


(* ------------------------------------------------------------------ *)
(** ** String helpers used by the source *)

Module JsString.

(** Characters removed by [String.prototype.trim] (ASCII part). *)
Definition is_space (c : ascii) : bool :=
  match nat_of_ascii c with
  | 9 | 10 | 11 | 12 | 13 | 32 => true
  | _ => false
  end.

Fixpoint drop_spaces (l : list ascii) : list ascii :=
  match l with
  | [] => []
  | c :: r => if is_space c then drop_spaces r else l
  end.

(** [s.trim()] *)
Definition trim (s : string) : string :=
  string_of_list_ascii
    (rev (drop_spaces (rev (drop_spaces (list_ascii_of_string s))))).

Fixpoint list_ascii_prefixb (p l : list ascii) : bool :=
  match p, l with
  | [], _ => true
  | c :: p', d :: l' => Ascii.eqb c d && list_ascii_prefixb p' l'
  | _ :: _, [] => false
  end.

(** [s.startsWith(p)] *)
Definition startsWith (s p : string) : bool :=
  list_ascii_prefixb (list_ascii_of_string p) (list_ascii_of_string s).

(** Node's POSIX [path.basename]: trailing slashes are ignored and the
    part after the last remaining slash is returned. *)
Fixpoint drop_trailing_slashes (l : list ascii) : list ascii :=
  match l with
  | "/"%char :: r => drop_trailing_slashes r
  | _ => l
  end.

Fixpoint after_last_slash (acc l : list ascii) : list ascii :=
  match l with
  | [] => acc
  | c :: r => if Ascii.eqb c "/"%char then after_last_slash [] r
              else after_last_slash (acc ++ [c]) r
  end.

Definition basename (p : string) : string :=
  string_of_list_ascii
    (after_last_slash []
       (rev (drop_trailing_slashes (rev (list_ascii_of_string p))))).

(** [s1 includes s2] *)
Definition includes (s sub : string) : Prop :=
  exists pre post, s = pre +:+ sub +:+ post.

End JsString.

Import JsString.

(* ------------------------------------------------------------------ *)
(** ** stripMarkdownCodeBlocks *)

Module Sanitizer.

(** [\w] or [-]: the character class of the language tag. *)
Definition is_tag_char (c : ascii) : bool :=
  let n := nat_of_ascii c in
  (((65 <=? n) && (n <=? 90)) || ((97 <=? n) && (n <=? 122))
   || ((48 <=? n) && (n <=? 57)) || (n =? 95) || (n =? 45))%nat.

Fixpoint drop_tag (l : list ascii) : list ascii :=
  match l with
  | [] => []
  | c :: r => if is_tag_char c then drop_tag r else l
  end.

Definition nl : ascii := ascii_of_nat 10.
Definition tick : ascii := "`"%char.
Definition fence : list ascii := [tick; tick; tick].
Definition closing : list ascii := [nl; tick; tick; tick].

Definition list_ascii_eqb (a b : list ascii) : bool :=
  list_ascii_prefixb a b && (length a =? length b)%nat.

(** [trimmed.match(/^```[\w-]*\n([\s\S]*?)\n```$/)], returning group 1.
    [[\w-]*] is followed by [\n], which is not in the class, so it
    consumes exactly the maximal run of tag characters; [$] (no [m] flag)
    only holds at the very end, so the lazy group is everything between
    that newline and a final [\n```]. *)
Definition codeBlockMatch (t : list ascii) : option (list ascii) :=
  if list_ascii_prefixb fence t then
    match drop_tag (drop 3 t) with
    | c :: rest =>
        if Ascii.eqb c nl then
          let n := length rest in
          if (4 <=? n)%nat && list_ascii_eqb (drop (n - 4) rest) closing
          then Some (take (n - 4) rest) else None
        else None
    | [] => None
    end
  else None.

Definition stripMarkdownCodeBlocks (text : string) : string :=
  let trimmed := trim text in
  match codeBlockMatch (list_ascii_of_string trimmed) with
  | Some body => string_of_list_ascii body
  | None => text
  end.

End Sanitizer.

Import Sanitizer.

Definition NL : string := String nl EmptyString.
Definition FENCE : string := "```".


(* ------------------------------------------------------------------ *)
(** ** Data model *)

(** [interface FileState] *)
Record FileState := mkFileState {
  path : string;
  content : string;
  lastModified : Z
}.

(** The two snapshot objects [file1] and [file2] of [main]. *)
Inductive side := File1 | File2.

Definition other (s : side) : side :=
  match s with File1 => File2 | File2 => File1 end.

(** Entries of [MODELS], looked up as a JS object: a key that is not an
    own property may still be inherited from [Object.prototype]. *)
Inductive model_ref :=
  | ModelId (id : string)
  | Inherited (prop : string)
  | Undefined.

Definition object_prototype_props : list string :=
  ["constructor"; "hasOwnProperty"; "isPrototypeOf"; "propertyIsEnumerable";
   "toLocaleString"; "toString"; "valueOf"; "__proto__";
   "__defineGetter__"; "__defineSetter__"; "__lookupGetter__";
   "__lookupSetter__"].

(** [MODELS[name]] *)
Definition MODELS (name : string) : model_ref :=
  if String.eqb name "sonnet-4.5" then ModelId "claude-sonnet-4-5-20250929"
  else if String.eqb name "haiku-4.5" then ModelId "claude-haiku-4-5-20251001"
  else if String.eqb name "haiku-3.5" then ModelId "claude-3-5-haiku-20241022"
  else if String.eqb name "opus-4.1" then ModelId "claude-opus-4-1-20250805"
  else if String.eqb name "opus-4" then ModelId "claude-opus-4-20250514"
  else if existsb (String.eqb name) object_prototype_props then Inherited name
  else Undefined.

Definition model_names : list string :=
  ["sonnet-4.5"; "haiku-4.5"; "haiku-3.5"; "opus-4.1"; "opus-4"].

Definition DEFAULT_MAX_TOKENS : Z := 4096.
Definition PROCESSING_DELAY_MS : Z := 100.

(** One segment of [message.content]. *)
Inductive segment :=
  | SText (text : string)
  | SOther (type_ : string).

(** How the awaited [client.messages.create(...)] settles. *)
Inductive api_response :=
  | ApiRejects (reason : string)
  | ApiMessage (segments : list segment).

(** The argument of [client.messages.create]. *)
Record Request := mkRequest {
  req_model : model_ref;
  req_max_tokens : Z;
  req_messages : list (string * string)   (* (role, content) *)
}.

(** Lines written to the terminal (chalk styling left out). *)
Inductive log_entry :=
  | LogLine (msg : string)           (* console.log *)
  | LogSucceed (msg : string)        (* spinner.succeed *)
  | LogFail (msg : string)           (* spinner.fail *)
  | LogError (msg : string).         (* console.error *)

Inductive exn :=
  | ENOENT (p : string)              (* readFileSync / statSync on a missing file *)
  | EACCES (p : string)              (* writeFileSync refused *)
  | ApiError (reason : string)       (* the create promise rejects *)
  | TypeError                        (* message.content[0] is undefined *)
  | UnexpectedResponse               (* "Unexpected response type from API" *)
  | ProcessExit (code : nat).        (* process.exit(code) *)

Record World := mkWorld {
  disk : gmap string string;         (* file contents *)
  mtimes : gmap string Z;            (* statSync(p).mtimeMs *)
  readonly : list string;            (* paths writeFileSync fails on *)
  file1 : FileState;
  file2 : FileState;
  modelId : model_ref;
  isProcessing : bool;
  timers : nat;                      (* pending setTimeout(() => isProcessing = false, 100) *)
  inflight : list side;              (* handlers suspended at their await; the target side *)
  requests : list Request;           (* every call of client.messages.create *)
  log : list log_entry;
  now : Z                            (* Date.now() *)
}.

Definition set_disk d w := mkWorld d (mtimes w) (readonly w) (file1 w) (file2 w) (modelId w)
  (isProcessing w) (timers w) (inflight w) (requests w) (log w) (now w).
Definition set_file s f w :=
  match s with
  | File1 => mkWorld (disk w) (mtimes w) (readonly w) f (file2 w) (modelId w)
      (isProcessing w) (timers w) (inflight w) (requests w) (log w) (now w)
  | File2 => mkWorld (disk w) (mtimes w) (readonly w) (file1 w) f (modelId w)
      (isProcessing w) (timers w) (inflight w) (requests w) (log w) (now w)
  end.
Definition get_file s w := match s with File1 => file1 w | File2 => file2 w end.
Definition set_modelId m w := mkWorld (disk w) (mtimes w) (readonly w) (file1 w) (file2 w) m
  (isProcessing w) (timers w) (inflight w) (requests w) (log w) (now w).
Definition set_isProcessing b w := mkWorld (disk w) (mtimes w) (readonly w) (file1 w) (file2 w)
  (modelId w) b (timers w) (inflight w) (requests w) (log w) (now w).
Definition set_timers n w := mkWorld (disk w) (mtimes w) (readonly w) (file1 w) (file2 w)
  (modelId w) (isProcessing w) n (inflight w) (requests w) (log w) (now w).
Definition set_inflight l w := mkWorld (disk w) (mtimes w) (readonly w) (file1 w) (file2 w)
  (modelId w) (isProcessing w) (timers w) l (requests w) (log w) (now w).
Definition set_requests l w := mkWorld (disk w) (mtimes w) (readonly w) (file1 w) (file2 w)
  (modelId w) (isProcessing w) (timers w) (inflight w) l (log w) (now w).
Definition set_log l w := mkWorld (disk w) (mtimes w) (readonly w) (file1 w) (file2 w)
  (modelId w) (isProcessing w) (timers w) (inflight w) (requests w) l (now w).
Definition set_now t w := mkWorld (disk w) (mtimes w) (readonly w) (file1 w) (file2 w)
  (modelId w) (isProcessing w) (timers w) (inflight w) (requests w) (log w) t.

(* ------------------------------------------------------------------ *)
(** ** A state and exception monad for the JS code *)

Definition M (A : Type) : Type := World -> (exn + A) * World.

Global Instance M_ret : MRet M := fun A a w => (inr a, w).
Global Instance M_bind : MBind M := fun A B f m w =>
  match m w with
  | (inl e, w') => (inl e, w')
  | (inr a, w') => f a w'
  end.

Definition throw {A} (e : exn) : M A := fun w => (inl e, w).

(** [try { m } catch (e) { h(e) }] *)
Definition try_catch {A} (m : M A) (h : exn -> M A) : M A := fun w =>
  match m w with
  | (inl e, w') => h e w'
  | r => r
  end.

Definition modify (f : World -> World) : M unit := fun w => (inr tt, f w).
Definition gets {A} (f : World -> A) : M A := fun w => (inr (f w), w).

Definition console_log (msg : string) : M unit := modify (fun w => set_log (log w ++ [LogLine msg]) w).
Definition console_error (msg : string) : M unit := modify (fun w => set_log (log w ++ [LogError msg]) w).
Definition spinner_succeed (msg : string) : M unit := modify (fun w => set_log (log w ++ [LogSucceed msg]) w).
Definition spinner_fail (msg : string) : M unit := modify (fun w => set_log (log w ++ [LogFail msg]) w).

Definition process_exit {A} (code : nat) : M A := throw (ProcessExit code).

Definition readFileSync (p : string) : M string := fun w =>
  match disk w !! p with
  | Some s => (inr s, w)
  | None => (inl (ENOENT p), w)
  end.

Definition writeFileSync (p s : string) : M unit := fun w =>
  if existsb (String.eqb p) (readonly w) then (inl (EACCES p), w)
  else (inr tt, set_disk (<[p := s]> (disk w)) w).

Definition existsSync (p : string) : M bool := gets (fun w => bool_decide (is_Some (disk w !! p))).

Definition statSync_mtimeMs (p : string) : M Z := fun w =>
  match mtimes w !! p with
  | Some t => (inr t, w)
  | None => (inl (ENOENT p), w)
  end.

Definition Date_now : M Z := gets now.
Definition getFile (s : side) : M FileState := gets (get_file s).
Definition setFile (s : side) (f : FileState) : M unit := modify (set_file s f).
Definition setProcessing (b : bool) : M unit := modify (set_isProcessing b).
Definition schedule_release : M unit := modify (fun w => set_timers (S (timers w)) w).

Definition show_exn (e : exn) : string :=
  match e with
  | ENOENT p => "ENOENT: no such file or directory, open '" +:+ p +:+ "'"
  | EACCES p => "EACCES: permission denied, open '" +:+ p +:+ "'"
  | ApiError r => r
  | TypeError => "TypeError: Cannot read properties of undefined (reading 'type')"
  | UnexpectedResponse => "Error: Unexpected response type from API"
  | ProcessExit _ => "exit"
  end.

(* ------------------------------------------------------------------ *)
(** ** translateFile *)

Definition DQ : string := String (ascii_of_nat 34) EmptyString.

Definition MINIMAL_CHANGES_INSTRUCTION : string :=
  "Please convert the source file content to match the target file's style/language/format. Make minimal changes - only what's necessary for the conversion.".

Definition INFER_INSTRUCTION : string :=
  "Based on the file names and extensions, infer the appropriate style/language/format for the conversion.".

Definition RESPOND_ONLY : string :=
  "Respond with ONLY the converted content, no explanations or markdown code blocks.".

(** The [prompt] template literal of [translateFile]. *)
Definition buildPrompt (sourceFile targetFile : FileState) : string :=
  let sourceName := basename (path sourceFile) in
  let targetName := basename (path targetFile) in
  let targetHasContent := negb (String.eqb (trim (content targetFile)) "") in
  if targetHasContent then
    "You are a bi-directional file translator. Your task is to convert the content from "
    +:+ DQ +:+ sourceName +:+ DQ +:+ " to match the style/language/format of "
    +:+ DQ +:+ targetName +:+ DQ +:+ "." +:+ NL +:+ NL
    +:+ "Source file (" +:+ sourceName +:+ "):" +:+ NL
    +:+ FENCE +:+ NL +:+ content sourceFile +:+ NL +:+ FENCE +:+ NL +:+ NL
    +:+ "Current target file (" +:+ targetName +:+ "):" +:+ NL
    +:+ FENCE +:+ NL +:+ content targetFile +:+ NL +:+ FENCE +:+ NL +:+ NL
    +:+ MINIMAL_CHANGES_INSTRUCTION +:+ " " +:+ RESPOND_ONLY
  else
    "You are a bi-directional file translator. Your task is to convert the content from "
    +:+ DQ +:+ sourceName +:+ DQ +:+ " to match the style/language/format suggested by "
    +:+ DQ +:+ targetName +:+ DQ +:+ "." +:+ NL +:+ NL
    +:+ "Source file (" +:+ sourceName +:+ "):" +:+ NL
    +:+ FENCE +:+ NL +:+ content sourceFile +:+ NL +:+ FENCE +:+ NL +:+ NL
    +:+ "The target file " +:+ DQ +:+ targetName +:+ DQ +:+ " is currently empty. "
    +:+ INFER_INSTRUCTION +:+ " " +:+ RESPOND_ONLY.

(** The argument passed to [client.messages.create]. *)
Definition translateFile_request (sourceFile targetFile : FileState) (m : model_ref) : Request :=
  mkRequest m DEFAULT_MAX_TOKENS [("user", buildPrompt sourceFile targetFile)].

Definition client_create (r : Request) : M unit :=
  modify (fun w => set_requests (requests w ++ [r]) w).

(** [translateFile] after [await client.messages.create(...)]. *)
Definition translateFile_settle (r : api_response) : M string :=
  match r with
  | ApiRejects reason => throw (ApiError reason)
  | ApiMessage segments =>
      match segments with
      | [] => throw TypeError
      | SText text :: _ => mret (stripMarkdownCodeBlocks text)
      | SOther _ :: _ => throw UnexpectedResponse
      end
  end.

(* ------------------------------------------------------------------ *)
(** ** performTranslation *)

(** Up to and including the call of [client.messages.create]. *)
Definition performTranslation_start (src tgt : side) (logPrefix : option string) : M unit :=
  match logPrefix with Some p => console_log p | None => mret tt end;;
  s ← getFile src;
  t ← getFile tgt;
  m ← gets modelId;
  client_create (translateFile_request s t m).

(** From the settlement of the awaited call to the end of the [try]/[catch]. *)
Definition performTranslation_settle (tgt : side) (successMessage : string)
    (r : api_response) : M bool :=
  try_catch
    (translated ← translateFile_settle r;
     t ← getFile tgt;
     n ← Date_now;
     setFile tgt (mkFileState (path t) translated n);;
     writeFileSync (path t) translated;;
     spinner_succeed successMessage;;
     mret true)
    (fun e =>
       spinner_fail "Translation failed";;
       console_error ("Error: " +:+ show_exn e);;
       mret false).

Definition performTranslation (src tgt : side) (successMessage : string)
    (logPrefix : option string) (r : api_response) : M bool :=
  performTranslation_start src tgt logPrefix;;
  performTranslation_settle tgt successMessage r.

(* ------------------------------------------------------------------ *)
(** ** handleFileChange *)

Definition change_prefix (f : FileState) : string :=
  "Change detected in " +:+ basename (path f).

Definition updated_message (f : FileState) : string :=
  "Updated " +:+ basename (path f).

(** The [try] block of [handleFileChange] up to the [await] of
    [performTranslation]: [true] when the handler is suspended there (its
    target is queued in [inflight]), [false] when it returned. *)
Definition handleFileChange_try (changed target : side) : M bool :=
  f ← getFile changed;
  newContent ← readFileSync (path f);
  if String.eqb newContent (content f) then
    setProcessing false;;
    mret false
  else
    n ← Date_now;
    setFile changed (mkFileState (path f) newContent n);;
    performTranslation_start changed target
      (Some (change_prefix (mkFileState (path f) newContent n)));;
    modify (fun w => set_inflight (inflight w ++ [target]) w);;
    mret true.

Definition handleFileChange (changed target : side) : M unit :=
  p ← gets isProcessing;
  if (p : bool) then mret tt
  else
    setProcessing true;;
    suspended ← try_catch (handleFileChange_try changed target)
                  (fun e => console_error ("Error reading file: " +:+ show_exn e);; mret false);
    if (suspended : bool) then mret tt
    else schedule_release.    (* finally { setTimeout(...) } *)

(** A suspended [handleFileChange] resumes when its request settles. *)
Definition handleFileChange_resume (target : side) (r : api_response) : M unit :=
  t ← getFile target;
  try_catch (_ ← performTranslation_settle target (updated_message t) r; mret tt)
    (fun e => console_error ("Error reading file: " +:+ show_exn e));;
  schedule_release.           (* finally { setTimeout(...) } *)

(* ------------------------------------------------------------------ *)
(** ** The event loop after [main] has attached the watchers *)

Inductive event :=
  | Edit (s : side) (text : string)   (* another program writes the file *)
  | Change (s : side)                 (* the file's watcher emits "change" *)
  | Settle (r : api_response)         (* the oldest pending request settles *)
  | TimerFires.                       (* the oldest pending release timer fires *)

Definition run (m : M unit) (w : World) : World := snd (m w).

Definition step (w : World) (e : event) : World :=
  let w' :=
    match e with
    | Edit s text => set_disk (<[path (get_file s w) := text]> (disk w)) w
    | Change s => run (handleFileChange s (other s)) w
    | Settle r =>
        match inflight w with
        | [] => w
        | t :: rest => run (handleFileChange_resume t r) (set_inflight rest w)
        end
    | TimerFires =>
        match timers w with
        | O => w
        | S n => set_isProcessing false (set_timers n w)
        end
    end in
  set_now (now w' + 1) w'.

Definition run_events (w : World) (es : list event) : World := fold_left step es w.

(* ------------------------------------------------------------------ *)
(** ** parseArgs *)

Record Options := mkOptions {
  model : string;
  help : bool;
  version : bool
}.

Definition default_options : Options := mkOptions "sonnet-4.5" false false.

Definition invalid_model_message (modelName : string) : string :=
  "Error: Invalid model " +:+ DQ +:+ modelName +:+ DQ
  +:+ ". Choose from: sonnet-4.5, haiku-4.5, haiku-3.5, opus-4.1, opus-4".

(** The [for] loop of [parseArgs]; [args[++i]] past the end is
    [undefined], looked up in [MODELS] under the key "undefined". *)
Fixpoint parseArgs_loop (options : Options) (files : list string) (args : list string)
    : M (Options * list string) :=
  match args with
  | [] => mret (options, files)
  | arg :: rest =>
      if String.eqb arg "--help" || String.eqb arg "-h" then
        parseArgs_loop (mkOptions (model options) true (version options)) files rest
      else if String.eqb arg "--version" || String.eqb arg "-v" then
        parseArgs_loop (mkOptions (model options) (help options) true) files rest
      else if String.eqb arg "--model" then
        match rest with
        | [] =>
            match MODELS "undefined" with
            | Undefined => console_error (invalid_model_message "undefined");; process_exit 1
            | _ => mret (mkOptions "undefined" (help options) (version options), files)
            end
        | modelName :: rest' =>
            match MODELS modelName with
            | Undefined => console_error (invalid_model_message modelName);; process_exit 1
            | _ => parseArgs_loop (mkOptions modelName (help options) (version options)) files rest'
            end
        end
      else if negb (startsWith arg "--") then
        parseArgs_loop options (files ++ [arg]) rest
      else
        parseArgs_loop options files rest
  end.

Definition parseArgs (args : list string) : M (Options * list string) :=
  parseArgs_loop default_options [] args.

(* ------------------------------------------------------------------ *)
(** ** getApiKey and main *)

Definition VERSION : string := "1.1.0".

Definition showHelp : M unit :=
  console_log "ai-translate - Bi-directional AI-driven file translation".

Definition showVersion : M unit := console_log ("ai-translate v" +:+ VERSION).

(** [join(homedir(), ".ai-translate-key")] for a home directory given
    without a trailing slash. *)
Definition keyPath (home : string) : string := home +:+ "/.ai-translate-key".

Definition getApiKey (home : string) : M string :=
  try_catch (k ← readFileSync (keyPath home); mret (trim k))
    (fun _ =>
       console_error ("Error reading API key from " +:+ keyPath home);;
       console_error "Please create ~/.ai-translate-key with your Anthropic API key";;
       process_exit 1).

Definition has_content (s : string) : bool := negb (String.eqb (trim s) "").

Definition auto_message (target source : string) : string :=
  basename target +:+ " is empty, auto-translating from " +:+ basename source.

(** [main] after [parseArgs], up to attaching the watchers; [boot] is how
    the request of the auto-translation settles, when there is one. *)
Definition main_checked (home : string) (boot : api_response) (options : Options)
    (files : list string) : M unit :=
  if help options then showHelp;; process_exit 0
  else if version options then showVersion;; process_exit 0
  else
    match files with
    | [file1Path; file2Path] =>
        e1 ← existsSync file1Path;
        if negb e1 then console_error ("Error: File not found: " +:+ file1Path);; process_exit 1
        else
        e2 ← existsSync file2Path;
        if negb e2 then console_error ("Error: File not found: " +:+ file2Path);; process_exit 1
        else
        _ ← getApiKey home;
        modify (set_modelId (MODELS (model options)));;
        c1 ← readFileSync file1Path;
        t1 ← statSync_mtimeMs file1Path;
        setFile File1 (mkFileState file1Path c1 t1);;
        c2 ← readFileSync file2Path;
        t2 ← statSync_mtimeMs file2Path;
        setFile File2 (mkFileState file2Path c2 t2);;
        console_log ("Translating " +:+ basename file1Path +:+ " <-> " +:+ basename file2Path);;
        console_log ("Model: " +:+ model options);;
        console_log "Press Ctrl+C to stop";;
        if has_content c1 && negb (has_content c2) then
          _ ← performTranslation File1 File2 ("Created " +:+ basename file2Path)
                (Some (auto_message file2Path file1Path)) boot;
          console_log ""
        else if has_content c2 && negb (has_content c1) then
          _ ← performTranslation File2 File1 ("Created " +:+ basename file1Path)
                (Some (auto_message file1Path file2Path)) boot;
          console_log ""
        else mret tt
    | _ =>
        console_error "Error: Please provide exactly two files";;
        console_error "Run 'translate --help' for usage information";;
        process_exit 1
    end.

Definition main (home : string) (boot : api_response) (args : list string) : M unit :=
  '(options, files) ← parseArgs args;
  main_checked home boot options files.

(** The world [main] starts in: nothing read yet, gate open. *)
Definition init_world (d : gmap string string) (mt : gmap string Z) (ro : list string)
    (t : Z) : World :=
  mkWorld d mt ro (mkFileState "" "" 0) (mkFileState "" "" 0) Undefined false 0 [] [] [] t.

(* ------------------------------------------------------------------ *)
(** ** Reading of the argument list used by the amended C10 *)

(** A token is a file operand when it does not start with "--", is not
    "-h" or "-v", and does not come right after "--model". *)
Definition kept_token (prev : option string) (t : string) : bool :=
  negb (startsWith t "--") && negb (String.eqb t "-h") && negb (String.eqb t "-v")
  && negb (bool_decide (prev = Some "--model")).

Fixpoint file_tokens (prev : option string) (args : list string) : list string :=
  match args with
  | [] => []
  | t :: rest => (if kept_token prev t then [t] else []) ++ file_tokens (Some t) rest
  end.

Definition is_log_error (e : log_entry) : bool :=
  match e with LogError _ => true | _ => false end.

Definition is_change (e : event) : bool :=
  match e with Change _ => true | _ => false end.

(** A run of [main] that ends in [process.exit(code)] having printed an
    error, sent no request and written nothing to disk. *)
Definition fatal_exit (code : nat) (w0 : World) (r : (exn + unit) * World) : Prop :=
  fst r = inl (ProcessExit code) /\ disk (snd r) = disk w0 /\
  requests (snd r) = requests w0 /\ existsb is_log_error (log (snd r)) = true.

(** The text [translateFile] accepts: the first segment, when it is text. *)
Definition response_text (r : api_response) : option string :=
  match r with
  | ApiMessage (SText text :: _) => Some text
  | _ => None
  end.

(* ------------------------------------------------------------------ *)
(** ** Readings of the argument list for the options *)

Definition is_help_flag (t : string) : bool := String.eqb t "--help" || String.eqb t "-h".
Definition is_version_flag (t : string) : bool := String.eqb t "--version" || String.eqb t "-v".

(** The tokens in option position: those not right after "--model". *)
Fixpoint flag_tokens (prev : option string) (args : list string) : list string :=
  match args with
  | [] => []
  | t :: rest =>
      (if bool_decide (prev = Some "--model") then [] else [t]) ++ flag_tokens (Some t) rest
  end.

(** The tokens right after "--model". *)
Fixpoint model_values (prev : option string) (args : list string) : list string :=
  match args with
  | [] => []
  | t :: rest =>
      (if bool_decide (prev = Some "--model") then [t] else []) ++ model_values (Some t) rest
  end.

Definition last_or (d : string) (l : list string) : string :=
  match last l with Some v => v | None => d end.

Definition is_edit (e : event) : bool :=
  match e with Edit _ _ => true | _ => false end.

(* ------------------------------------------------------------------ *)
(** ** Sample inputs *)

Definition sample_disk : gmap string string :=
  <["/home/u/.ai-translate-key" := "sk-ant-key"]>
    (<["polish.md" := "Witaj swiecie!"]> (<["english.md" := ""]> ∅)).

Definition sample_mtimes : gmap string Z :=
  <["polish.md" := 1%Z]> (<["english.md" := 2%Z]> ∅).

(** The world right after [main "/home/u" _ ["polish.md"; "english.md"]]
    had the snapshots read, before any auto-translation. *)
Definition sample_world : World :=
  mkWorld sample_disk sample_mtimes []
    (mkFileState "polish.md" "Witaj swiecie!" 1) (mkFileState "english.md" "" 2)
    (ModelId "claude-sonnet-4-5-20250929") false 0 [] [] [] 10.

(** The same world where writing english.md fails. *)
Definition sample_world_readonly : World :=
  mkWorld sample_disk sample_mtimes ["english.md"]
    (mkFileState "polish.md" "Witaj swiecie!" 1) (mkFileState "english.md" "" 2)
    (ModelId "claude-sonnet-4-5-20250929") false 0 [] [] [] 10.

(** polish.md edited, its notification not yet handled. *)
Definition sample_world_edited : World := step sample_world (Edit File1 "Witaj!").

(** The notification handled: english.md's translation is awaited. *)
Definition sample_world_pending : World := step sample_world_edited (Change File1).

(** A model answer in one text segment. *)
Definition sample_reply : api_response := ApiMessage [SText "Hello world!"].


(** A run of events: a no-op notification on polish.md, an edit of
    english.md and its notification, the release scheduled by the first
    notification firing, then an edit of polish.md and its notification. *)
Definition stale_release_trace : list event :=
  [Change File1; Edit File2 "Hello world!"; Change File2; TimerFires;
   Edit File1 "Witaj!"; Change File1].

(** The first four events of [stale_release_trace]: up to the moment the
    release scheduled by the no-op notification fires while english.md's
    translation is awaited. *)
Definition early_release_trace : list event :=
  [Change File1; Edit File2 "Hello world!"; Change File2; TimerFires].

(** A disk where both files have content, so [main] sends no request. *)
Definition sample_disk_both : gmap string string :=
  <["english.md" := "Hello world!"]> sample_disk.

(* ================================================================== *)
(** * Proofs *)

(* ------------------------------------------------------------------ *)
(** ** Strings *)

Example strip_ex1 :
  stripMarkdownCodeBlocks (FENCE +:+ "js" +:+ NL +:+ "body" +:+ NL +:+ FENCE) = "body".
Proof. reflexivity. Qed.
Example strip_ex2 :
  stripMarkdownCodeBlocks ("  " +:+ FENCE +:+ "js" +:+ NL +:+ "body" +:+ NL +:+ FENCE +:+ NL +:+ "prose")
  = "  " +:+ FENCE +:+ "js" +:+ NL +:+ "body" +:+ NL +:+ FENCE +:+ NL +:+ "prose".
Proof. reflexivity. Qed.
Example strip_ex3 :
  stripMarkdownCodeBlocks (FENCE +:+ "c++" +:+ NL +:+ "x" +:+ NL +:+ FENCE)
  = FENCE +:+ "c++" +:+ NL +:+ "x" +:+ NL +:+ FENCE.
Proof. reflexivity. Qed.
Example basename_ex : basename "/tmp/dir/polish.md/" = "polish.md".
Proof. reflexivity. Qed.
Example trim_ex : trim ("  a b" +:+ NL) = "a b".
Proof. reflexivity. Qed.

Lemma str_app_cons (c : ascii) (s1 s2 : string) :
  String c s1 +:+ s2 = String c (s1 +:+ s2).
Proof. reflexivity. Qed.

Lemma str_app_nil (s : string) : EmptyString +:+ s = s.
Proof. reflexivity. Qed.

Lemma str_app_assoc (a b c : string) : (a +:+ b) +:+ c = a +:+ (b +:+ c).
Proof.
  induction a as [|x a IH]; [reflexivity|].
  rewrite !str_app_cons, IH. reflexivity.
Qed.

Lemma list_ascii_of_string_app (s1 s2 : string) :
  list_ascii_of_string (s1 +:+ s2) = list_ascii_of_string s1 ++ list_ascii_of_string s2.
Proof.
  induction s1 as [|c s1 IH]; [reflexivity|].
  rewrite str_app_cons. cbn [list_ascii_of_string]. rewrite IH. reflexivity.
Qed.

Lemma string_of_list_ascii_app (l1 l2 : list ascii) :
  string_of_list_ascii (l1 ++ l2) = string_of_list_ascii l1 +:+ string_of_list_ascii l2.
Proof.
  induction l1 as [|c l1 IH]; [reflexivity|].
  cbn [app string_of_list_ascii]. rewrite IH, str_app_cons. reflexivity.
Qed.

Lemma list_ascii_prefixb_app (p l : list ascii) :
  list_ascii_prefixb p (p ++ l) = true.
Proof.
  induction p as [|c p IH]; [reflexivity|].
  cbn [app list_ascii_prefixb]. rewrite Ascii.eqb_refl, IH. reflexivity.
Qed.

Lemma list_ascii_prefixb_spec (p l : list ascii) :
  list_ascii_prefixb p l = true -> l = p ++ drop (length p) l.
Proof.
  revert l; induction p as [|c p IH]; intros l H; [reflexivity|].
  destruct l as [|d l]; [discriminate|].
  cbn [list_ascii_prefixb] in H. apply andb_prop in H as [Hc Hp].
  apply Ascii.eqb_eq in Hc as ->. cbn. f_equal. by apply IH.
Qed.

Lemma list_ascii_eqb_eq (a b : list ascii) : list_ascii_eqb a b = true -> a = b.
Proof.
  unfold list_ascii_eqb. intros H. apply andb_prop in H as [Hp Hl].
  apply list_ascii_prefixb_spec in Hp. apply Nat.eqb_eq in Hl.
  rewrite Hp in Hl |- *. rewrite length_app in Hl.
  assert (length (drop (length a) b) = 0)%nat as H0 by lia.
  apply nil_length_inv in H0. rewrite H0, app_nil_r. reflexivity.
Qed.

Lemma drop_spaces_id (c : ascii) (l : list ascii) :
  is_space c = false -> drop_spaces (c :: l) = c :: l.
Proof. intros H. cbn. rewrite H. reflexivity. Qed.

Lemma trim_fenced (m : list ascii) :
  trim (string_of_list_ascii (tick :: m ++ [tick])) = string_of_list_ascii (tick :: m ++ [tick]).
Proof.
  unfold trim. rewrite list_ascii_of_string_of_list_ascii.
  rewrite drop_spaces_id by reflexivity.
  replace (rev (tick :: m ++ [tick])) with (tick :: rev (tick :: m)).
  2:{ change (tick :: m ++ [tick]) with ((tick :: m) ++ [tick]). rewrite rev_app_distr. reflexivity. }
  rewrite drop_spaces_id by reflexivity.
  replace (tick :: rev (tick :: m)) with (rev ((tick :: m) ++ [tick])).
  2:{ rewrite rev_app_distr. reflexivity. }
  rewrite rev_involutive. reflexivity.
Qed.

(* ------------------------------------------------------------------ *)
(** ** The sanitizer *)

Lemma drop_tag_app (t l : list ascii) :
  forallb is_tag_char t = true -> drop_tag (t ++ l) = drop_tag l.
Proof.
  induction t as [|c t IH]; intros H; [reflexivity|].
  cbn in H. apply andb_prop in H as [Hc Ht].
  cbn [app drop_tag]. rewrite Hc. by apply IH.
Qed.

Lemma drop_tag_spec (l r : list ascii) :
  drop_tag l = r -> exists t, l = t ++ r /\ forallb is_tag_char t = true.
Proof.
  revert r; induction l as [|c l IH]; intros r H.
  - exists []. subst. split; reflexivity.
  - cbn in H. destruct (is_tag_char c) eqn:Hc.
    + destruct (IH r H) as (t & -> & Ht). exists (c :: t). cbn. rewrite Hc, Ht. split; reflexivity.
    + exists []. subst. split; reflexivity.
Qed.

Lemma codeBlockMatch_fenced (t b : list ascii) :
  forallb is_tag_char t = true ->
  codeBlockMatch (fence ++ t ++ nl :: b ++ closing) = Some b.
Proof.
  intros Ht. unfold codeBlockMatch. rewrite list_ascii_prefixb_app.
  change (drop 3 (fence ++ t ++ nl :: b ++ closing)) with (t ++ nl :: b ++ closing).
  rewrite drop_tag_app by exact Ht. cbn [drop_tag]. 
  replace (is_tag_char nl) with false by reflexivity.
  rewrite Ascii.eqb_refl. rewrite length_app.
  replace (length b + length closing - 4)%nat with (length b) by (cbn; lia).
  rewrite drop_app_length, take_app_length.
  replace (4 <=? length b + length closing)%nat with true by (symmetry; apply Nat.leb_le; cbn; lia).
  reflexivity.
Qed.

Lemma codeBlockMatch_spec (l b : list ascii) :
  codeBlockMatch l = Some b ->
  exists t, forallb is_tag_char t = true /\ l = fence ++ t ++ nl :: b ++ closing.
Proof.
  unfold codeBlockMatch. destruct (list_ascii_prefixb fence l) eqn:Hp; [|discriminate].
  apply list_ascii_prefixb_spec in Hp.
  destruct (drop_tag (drop 3 l)) as [|c rest] eqn:Hd; [discriminate|].
  destruct (Ascii.eqb c nl) eqn:Hc; [|discriminate].
  apply Ascii.eqb_eq in Hc as ->.
  destruct ((4 <=? length rest)%nat && list_ascii_eqb (drop (length rest - 4) rest) closing) eqn:Hr;
    [|discriminate].
  intros Hb. injection Hb as <-.
  apply andb_prop in Hr as [_ Hr]. apply list_ascii_eqb_eq in Hr.
  destruct (drop_tag_spec _ _ Hd) as (t & Ht & Htag).
  exists t. split; [exact Htag|].
  rewrite Hp. change (length fence) with 3%nat. rewrite Ht. f_equal. f_equal. f_equal.
  rewrite <- Hr. symmetry. apply take_drop.
Qed.

Lemma list_ascii_of_fenced (tag body : string) :
  list_ascii_of_string (FENCE +:+ tag +:+ NL +:+ body +:+ NL +:+ FENCE)
  = fence ++ list_ascii_of_string tag ++ nl :: list_ascii_of_string body ++ closing.
Proof.
  rewrite !list_ascii_of_string_app. reflexivity.
Qed.

Lemma list_ascii_of_string_inj (s1 s2 : string) :
  list_ascii_of_string s1 = list_ascii_of_string s2 -> s1 = s2.
Proof.
  intros H. rewrite <- (string_of_list_ascii_of_string s1), <- (string_of_list_ascii_of_string s2).
  by rewrite H.
Qed.

Lemma fenced_last (tag body : string) :
  last (list_ascii_of_string (FENCE +:+ tag +:+ NL +:+ body +:+ NL +:+ FENCE)) = Some tick.
Proof.
  rewrite list_ascii_of_fenced.
  replace (fence ++ list_ascii_of_string tag ++ nl :: list_ascii_of_string body ++ closing)
    with ((fence ++ list_ascii_of_string tag ++ nl :: list_ascii_of_string body ++ [nl; tick; tick]) ++ [tick]).
  - apply last_snoc.
  - rewrite <- !app_assoc. cbn [app]. rewrite <- !app_assoc. reflexivity.
Qed.

(** C4 (as amended): [stripMarkdownCodeBlocks] returns the body exactly
    when the trimmed text is three backticks, a possibly empty tag made of
    letters, digits, [_] and [-], a newline, the body, a newline and three
    backticks ending the text; any other text, e.g. a fence followed by
    prose, comes back unchanged and untrimmed. *)
Theorem stripMarkdownCodeBlocks_spec :
  (forall text tag body,
     forallb is_tag_char (list_ascii_of_string tag) = true ->
     trim text = FENCE +:+ tag +:+ NL +:+ body +:+ NL +:+ FENCE ->
     stripMarkdownCodeBlocks text = body) /\
  (forall text,
     (forall tag body,
        forallb is_tag_char (list_ascii_of_string tag) = true ->
        trim text <> FENCE +:+ tag +:+ NL +:+ body +:+ NL +:+ FENCE) ->
     stripMarkdownCodeBlocks text = text).
Proof.
  split.
  - intros text tag body Htag Ht. unfold stripMarkdownCodeBlocks.
    rewrite Ht, list_ascii_of_fenced, codeBlockMatch_fenced by exact Htag.
    apply string_of_list_ascii_of_string.
  - intros text Hnot. unfold stripMarkdownCodeBlocks.
    destruct (codeBlockMatch (list_ascii_of_string (trim text))) as [b|] eqn:E;
      [exfalso|reflexivity].
    destruct (codeBlockMatch_spec _ _ E) as (t & Ht & Hl).
    apply (Hnot (string_of_list_ascii t) (string_of_list_ascii b)).
    + by rewrite list_ascii_of_string_of_list_ascii.
    + apply list_ascii_of_string_inj.
      by rewrite list_ascii_of_fenced, !list_ascii_of_string_of_list_ascii.
Qed.

Lemma stripMarkdownCodeBlocks_spec_witness :
  stripMarkdownCodeBlocks ("  " +:+ FENCE +:+ "ts" +:+ NL +:+ "let x = 1;" +:+ NL +:+ FENCE +:+ NL)
    = "let x = 1;" /\
  stripMarkdownCodeBlocks (FENCE +:+ "ts" +:+ NL +:+ "x" +:+ NL +:+ FENCE +:+ NL +:+ "Done.")
    = FENCE +:+ "ts" +:+ NL +:+ "x" +:+ NL +:+ FENCE +:+ NL +:+ "Done.".
Proof.
  split.
  - apply (proj1 stripMarkdownCodeBlocks_spec _ "ts"); vm_compute; reflexivity.
  - apply (proj2 stripMarkdownCodeBlocks_spec). intros tag body _ H.
    apply (f_equal (fun s => last (list_ascii_of_string s))) in H.
    rewrite fenced_last in H. vm_compute in H. discriminate.
Defined.

(** C4 as stated fails: a fenced block whose language tag is [c++] is not
    recognised (the tag class is [[\w-]]) and comes back unchanged. *)
Lemma stripMarkdownCodeBlocks_cpp_tag :
  stripMarkdownCodeBlocks (FENCE +:+ "c++" +:+ NL +:+ "int x;" +:+ NL +:+ FENCE)
    = FENCE +:+ "c++" +:+ NL +:+ "int x;" +:+ NL +:+ FENCE /\
  stripMarkdownCodeBlocks (FENCE +:+ "c++" +:+ NL +:+ "int x;" +:+ NL +:+ FENCE) <> "int x;".
Proof. split; [vm_compute; reflexivity | intros H; vm_compute in H; discriminate]. Qed.

(* ------------------------------------------------------------------ *)
(** ** Substrings of the prompt *)

Lemma str_app_nil_r (s : string) : s +:+ EmptyString = s.
Proof. induction s as [|c s IH]; [reflexivity|]. rewrite str_app_cons, IH. reflexivity. Qed.

Lemma includes_refl (s : string) : includes s s.
Proof. exists EmptyString, EmptyString. rewrite str_app_nil, str_app_nil_r. reflexivity. Qed.

Lemma includes_head (s r : string) : includes (s +:+ r) s.
Proof. exists EmptyString, r. reflexivity. Qed.

Lemma includes_app_l (p s x : string) : includes s x -> includes (p +:+ s) x.
Proof.
  intros (pre & post & ->). exists (p +:+ pre), post. by rewrite !str_app_assoc.
Qed.

Ltac solve_includes :=
  first [ apply includes_refl
        | apply includes_head
        | apply includes_app_l; solve_includes ].

Lemma buildPrompt_parts (s t : FileState) :
  includes (buildPrompt s t) (basename (path s)) /\
  includes (buildPrompt s t) (basename (path t)) /\
  includes (buildPrompt s t) (content s) /\
  (has_content (content t) = true ->
     includes (buildPrompt s t) (content t) /\
     includes (buildPrompt s t) MINIMAL_CHANGES_INSTRUCTION) /\
  (has_content (content t) = false ->
     includes (buildPrompt s t) INFER_INSTRUCTION).
Proof.
  unfold buildPrompt, has_content. cbv zeta.
  destruct (negb (String.eqb (trim (content t)) "")) eqn:Hc.
  - repeat split; try solve_includes; discriminate.
  - repeat split; try solve_includes; try discriminate. intros _. solve_includes.
Qed.

Ltac run_M := cbv [mbind M_bind mret M_ret gets modify throw try_catch] in *; cbn -[String.append] in *.

Lemma performTranslation_start_run (src tgt : side) (logPrefix : option string) (w : World) :
  exists w1,
    performTranslation_start src tgt logPrefix w
      = (inr tt, set_requests (requests w1 ++
           [translateFile_request (get_file src w) (get_file tgt w) (modelId w)]) w1) /\
    w1 = match logPrefix with
         | Some p => set_log (log w ++ [LogLine p]) w
         | None => w
         end.
Proof.
  exists (match logPrefix with
          | Some p => set_log (log w ++ [LogLine p]) w
          | None => w
          end).
  split; [|reflexivity].
  unfold performTranslation_start, getFile, client_create, console_log.
  destruct logPrefix as [p|]; run_M; reflexivity.
Qed.

(** C7: the transformation step sends one request, with [max_tokens] the
    constant 4096, whose single user message holds both base names and the
    source content, plus the target content and the minimal-changes
    instruction when the target has content, or the instruction to infer
    the format from the file names when it has none. *)
Theorem translateFile_request_prompt (src tgt : side) (logPrefix : option string) (w : World) :
  let s := get_file src w in
  let t := get_file tgt w in
  exists prompt,
    requests (snd (performTranslation_start src tgt logPrefix w))
      = requests w ++ [mkRequest (modelId w) DEFAULT_MAX_TOKENS [("user", prompt)]] /\
    DEFAULT_MAX_TOKENS = 4096%Z /\
    includes prompt (basename (path s)) /\
    includes prompt (basename (path t)) /\
    includes prompt (content s) /\
    (has_content (content t) = true ->
       includes prompt (content t) /\ includes prompt MINIMAL_CHANGES_INSTRUCTION) /\
    (has_content (content t) = false -> includes prompt INFER_INSTRUCTION).
Proof.
  cbv zeta. exists (buildPrompt (get_file src w) (get_file tgt w)).
  destruct (performTranslation_start_run src tgt logPrefix w) as (w1 & -> & ->).
  split; [destruct logPrefix; reflexivity|].
  split; [reflexivity|]. apply buildPrompt_parts.
Qed.

(* ------------------------------------------------------------------ *)
(** ** The transformation step *)

Lemma get_set_file (s : side) (f : FileState) (w : World) : get_file s (set_file s f w) = f.
Proof. by destruct s. Qed.

Lemma translateFile_settle_ok (r : api_response) (w : World) (text : string) :
  response_text r = Some text ->
  translateFile_settle r w = (inr (stripMarkdownCodeBlocks text), w).
Proof.
  destruct r as [|[|[t|ty] segs]]; cbn; try discriminate.
  intros [= ->]. reflexivity.
Qed.

Lemma translateFile_settle_err (r : api_response) (w : World) :
  response_text r = None -> exists e, translateFile_settle r w = (inl e, w).
Proof.
  destruct r as [reason|[|[t|ty] segs]]; cbn; try discriminate; intros _; eexists; reflexivity.
Qed.

Lemma performTranslation_settle_rejected (tgt : side) (msg : string) (r : api_response) (w : World) :
  response_text r = None ->
  exists e, performTranslation_settle tgt msg r w
    = (inr false, set_log ((log w ++ [LogFail "Translation failed"]) ++ [LogError e]) w).
Proof.
  intros Hr. destruct (translateFile_settle_err r w Hr) as [e He].
  exists ("Error: " +:+ show_exn e).
  unfold performTranslation_settle, spinner_fail, console_error.
  cbv [try_catch mbind M_bind]. rewrite He. run_M. reflexivity.
Qed.

Lemma performTranslation_settle_write_refused (tgt : side) (msg : string) (r : api_response)
    (w : World) (text : string) :
  response_text r = Some text ->
  existsb (String.eqb (path (get_file tgt w))) (readonly w) = true ->
  let w1 := set_file tgt (mkFileState (path (get_file tgt w)) (stripMarkdownCodeBlocks text) (now w)) w in
  performTranslation_settle tgt msg r w
    = (inr false, set_log ((log w1 ++ [LogFail "Translation failed"])
                             ++ [LogError ("Error: " +:+ show_exn (EACCES (path (get_file tgt w))))]) w1).
Proof.
  intros Hr Hro. cbv zeta.
  unfold performTranslation_settle, spinner_fail, console_error, spinner_succeed, getFile,
    setFile, Date_now, writeFileSync.
  cbv [try_catch mbind M_bind]. rewrite (translateFile_settle_ok r w text Hr).
  destruct tgt; run_M; rewrite Hro; reflexivity.
Qed.

(** C1 (as amended): when the request is rejected or its answer is not
    text-first, the step reports the error, returns [false] and leaves the
    disk and the target snapshot as they were; when the answer is text but
    writing the target fails, it reports the error, returns [false] and
    leaves the disk as it was, but the target snapshot already holds the
    sanitized answer (the snapshot is updated before the write). *)
Theorem performTranslation_failure (src tgt : side) (msg : string) (prefix : option string)
    (r : api_response) (w : World) :
  (response_text r = None ->
     fst (performTranslation src tgt msg prefix r w) = inr false /\
     disk (snd (performTranslation src tgt msg prefix r w)) = disk w /\
     get_file tgt (snd (performTranslation src tgt msg prefix r w)) = get_file tgt w /\
     LogFail "Translation failed" ∈ log (snd (performTranslation src tgt msg prefix r w))) /\
  (forall text,
     response_text r = Some text ->
     existsb (String.eqb (path (get_file tgt w))) (readonly w) = true ->
     fst (performTranslation src tgt msg prefix r w) = inr false /\
     disk (snd (performTranslation src tgt msg prefix r w)) = disk w /\
     content (get_file tgt (snd (performTranslation src tgt msg prefix r w)))
       = stripMarkdownCodeBlocks text /\
     LogFail "Translation failed" ∈ log (snd (performTranslation src tgt msg prefix r w))).
Proof.
  unfold performTranslation. cbv [mbind M_bind].
  destruct (performTranslation_start_run src tgt prefix w) as (w1 & -> & Hw1).
  split.
  - intros Hr.
    destruct (performTranslation_settle_rejected tgt msg r
                (set_requests (requests w1 ++ [translateFile_request (get_file src w)
                   (get_file tgt w) (modelId w)]) w1) Hr) as [e ->].
    cbn -[String.append]. subst w1.
    destruct prefix, tgt; cbn -[String.append]; (split; [reflexivity|]);
      (split; [reflexivity|]); (split; [reflexivity|]); set_solver.
  - intros text Hr Hro.
    rewrite performTranslation_settle_write_refused with (text := text); [| exact Hr |].
    + subst w1. destruct prefix, tgt; cbn -[String.append];
        (split; [reflexivity|]); (split; [reflexivity|]); (split; [reflexivity|]); set_solver.
    + subst w1. destruct prefix, tgt; exact Hro.
Qed.

(** C1 as stated fails: a step whose write is refused returns [false] but
    the target snapshot has already taken the new text. *)
Lemma performTranslation_write_refused_updates_snapshot :
  fst (performTranslation File1 File2 "Created english.md" None
         (ApiMessage [SText "Hello world!"]) sample_world_readonly) = inr false /\
  disk (snd (performTranslation File1 File2 "Created english.md" None
         (ApiMessage [SText "Hello world!"]) sample_world_readonly)) = disk sample_world_readonly /\
  content (file2 sample_world_readonly) = "" /\
  content (file2 (snd (performTranslation File1 File2 "Created english.md" None
         (ApiMessage [SText "Hello world!"]) sample_world_readonly))) = "Hello world!".
Proof. vm_compute. repeat split. Qed.

(** C6 (as amended): [translateFile] succeeds exactly when the first
    segment of the response is text (later segments are ignored); a
    rejected call, an empty response or a non-text first segment raises,
    and the step catches it and returns [false]. *)
Theorem translateFile_response_shape (r : api_response) (w : World) :
  (forall text, response_text r = Some text ->
     translateFile_settle r w = (inr (stripMarkdownCodeBlocks text), w)) /\
  (response_text r = None ->
     (exists e, translateFile_settle r w = (inl e, w)) /\
     forall src tgt msg prefix,
       fst (performTranslation src tgt msg prefix r w) = inr false).
Proof.
  split.
  - intros text. apply translateFile_settle_ok.
  - intros Hr. split; [by apply translateFile_settle_err|].
    intros src tgt msg prefix. by apply performTranslation_failure.
Qed.

(** C6 as stated fails: a response with a text segment followed by another
    segment is accepted and the step succeeds. *)
Lemma translateFile_accepts_two_segments :
  fst (translateFile_settle (ApiMessage [SText "Hello world!"; SOther "tool_use"]) sample_world)
    = inr "Hello world!" /\
  fst (performTranslation File1 File2 "Created english.md" None
         (ApiMessage [SText "Hello world!"; SOther "tool_use"]) sample_world) = inr true.
Proof. split; vm_compute; reflexivity. Qed.

(* ------------------------------------------------------------------ *)
(** ** The change handler *)

Ltac run_H := cbv [mbind M_bind mret M_ret gets modify throw try_catch] in *;
              cbn -[String.append lookup] in *.

(** C3: a change notification that passes the gate and re-reads exactly
    the snapshot's content runs no transformation, changes no snapshot
    (whatever their [lastModified]) and leaves the gate open. *)
Theorem handleFileChange_same_content (s : side) (w : World)
    (Hidle : isProcessing w = false)
    (Hsame : disk w !! path (get_file s w) = Some (content (get_file s w))) :
  let w' := step w (Change s) in
  requests w' = requests w /\ inflight w' = inflight w /\
  get_file File1 w' = get_file File1 w /\ get_file File2 w' = get_file File2 w /\
  disk w' = disk w /\ isProcessing w' = false.
Proof.
  unfold step, run, handleFileChange, handleFileChange_try, getFile, readFileSync,
    setProcessing, schedule_release.
  destruct s; run_H; rewrite Hidle; run_H; rewrite Hsame; run_H;
    rewrite String.eqb_refl; run_H; repeat split.
Qed.

Lemma handleFileChange_same_content_witness :
  isProcessing sample_world = false /\
  disk sample_world !! path (get_file File1 sample_world)
    = Some (content (get_file File1 sample_world)) /\
  (let w' := step sample_world (Change File1) in
   requests w' = requests sample_world /\ inflight w' = inflight sample_world /\
   get_file File1 w' = get_file File1 sample_world /\
   get_file File2 w' = get_file File2 sample_world /\
   disk w' = disk sample_world /\ isProcessing w' = false).
Proof.
  split; [reflexivity|]. split; [vm_compute; reflexivity|].
  apply handleFileChange_same_content; [reflexivity | vm_compute; reflexivity].
Defined.

(** While the gate is closed a notification is dropped: nothing but the
    clock moves. *)
Lemma change_dropped_while_processing (s : side) (w : World) :
  isProcessing w = true -> step w (Change s) = set_now (now w + 1) w.
Proof.
  intros H. unfold step, run, handleFileChange. run_H. rewrite H. reflexivity.
Qed.

Lemma performTranslation_settle_written (tgt : side) (msg : string) (r : api_response)
    (w : World) (text : string) :
  response_text r = Some text ->
  existsb (String.eqb (path (get_file tgt w))) (readonly w) = false ->
  let w1 := set_file tgt (mkFileState (path (get_file tgt w)) (stripMarkdownCodeBlocks text) (now w)) w in
  performTranslation_settle tgt msg r w
    = (inr true, set_log (log w1 ++ [LogSucceed msg])
                   (set_disk (<[path (get_file tgt w) := stripMarkdownCodeBlocks text]> (disk w1)) w1)).
Proof.
  intros Hr Hro. cbv zeta.
  unfold performTranslation_settle, spinner_fail, console_error, spinner_succeed, getFile,
    setFile, Date_now, writeFileSync.
  cbv [try_catch mbind M_bind]. rewrite (translateFile_settle_ok r w text Hr).
  destruct tgt; run_M; rewrite Hro; reflexivity.
Qed.

(** The step after the await touches only the log, the target snapshot
    and the disk, and never lets an exception out. *)
Lemma performTranslation_settle_frame (tgt : side) (msg : string) (r : api_response) (w : World) :
  (exists b, fst (performTranslation_settle tgt msg r w) = inr b) /\
  timers (snd (performTranslation_settle tgt msg r w)) = timers w /\
  inflight (snd (performTranslation_settle tgt msg r w)) = inflight w /\
  requests (snd (performTranslation_settle tgt msg r w)) = requests w /\
  isProcessing (snd (performTranslation_settle tgt msg r w)) = isProcessing w /\
  get_file (other tgt) (snd (performTranslation_settle tgt msg r w)) = get_file (other tgt) w /\
  exists l, log (snd (performTranslation_settle tgt msg r w)) = log w ++ l.
Proof.
  destruct (response_text r) as [text|] eqn:Hr.
  - destruct (existsb (String.eqb (path (get_file tgt w))) (readonly w)) eqn:Hro.
    + rewrite (performTranslation_settle_write_refused tgt msg r w text Hr Hro).
      destruct tgt; cbn; (split; [eexists; reflexivity|]); repeat split;
        eexists; rewrite <- !app_assoc; reflexivity.
    + rewrite (performTranslation_settle_written tgt msg r w text Hr Hro).
      destruct tgt; cbn; (split; [eexists; reflexivity|]); repeat split;
        eexists; reflexivity.
  - destruct (performTranslation_settle_rejected tgt msg r w Hr) as [e ->].
    cbn; (split; [eexists; reflexivity|]); repeat split;
      eexists; rewrite <- !app_assoc; reflexivity.
Qed.

(** C8: the release scheduled by a notification whose content was
    unchanged is not cancelled, although that handler has already reopened
    the gate itself.  In [early_release_trace] it fires while the handler
    of the next notification (on english.md) is still awaiting its answer:
    the gate is open again, that request is pending and its own release
    has not even been scheduled, so the gate is not held for 100 ms after
    the step resolves.  Apart from that the handler behaves as the claim
    says, path by path: a notification at a closed gate is ignored; one
    that passes the gate never lets an exception out; a failed re-read
    leaves the gate closed and schedules one release at once; unchanged
    content reopens the gate and still schedules one release; changed
    content suspends the handler on its request with the gate closed and
    no release scheduled; and the handler, when its request settles,
    whatever the outcome, schedules one release without raising. *)
Theorem handleFileChange_releases :
  (let w := run_events sample_world early_release_trace in
   isProcessing w = false /\ inflight w = [File1] /\ timers w = 0%nat) /\
  (forall s w, isProcessing w = true -> handleFileChange s (other s) w = (inr tt, w)) /\
  (forall s w, isProcessing w = false -> disk w !! path (get_file s w) = None ->
     let w' := snd (handleFileChange s (other s) w) in
     fst (handleFileChange s (other s) w) = inr tt /\ isProcessing w' = true /\
     timers w' = S (timers w) /\ inflight w' = inflight w) /\
  (forall s w, isProcessing w = false ->
     disk w !! path (get_file s w) = Some (content (get_file s w)) ->
     let w' := snd (handleFileChange s (other s) w) in
     fst (handleFileChange s (other s) w) = inr tt /\ isProcessing w' = false /\
     timers w' = S (timers w) /\ inflight w' = inflight w) /\
  (forall s w c, isProcessing w = false -> disk w !! path (get_file s w) = Some c ->
     c <> content (get_file s w) ->
     let w' := snd (handleFileChange s (other s) w) in
     fst (handleFileChange s (other s) w) = inr tt /\ isProcessing w' = true /\
     timers w' = timers w /\ inflight w' = inflight w ++ [other s]) /\
  (forall t r w,
     fst (handleFileChange_resume t r w) = inr tt /\
     isProcessing (snd (handleFileChange_resume t r w)) = isProcessing w /\
     timers (snd (handleFileChange_resume t r w)) = S (timers w)).
Proof.
  split; [vm_compute; repeat split|].
  split; [intros s w H; unfold handleFileChange; run_H; rewrite H; reflexivity|].
  unfold handleFileChange, handleFileChange_try, getFile, readFileSync, setProcessing,
    schedule_release, performTranslation_start, client_create, console_log, console_error,
    Date_now, setFile.
  split; [|split; [|split]].
  - intros s w H Hd. destruct s; cbv zeta; run_H; rewrite H; run_H; cbn in Hd;
      rewrite Hd; run_H; repeat split.
  - intros s w H Hd. destruct s; cbv zeta; run_H; rewrite H; run_H; cbn in Hd;
      rewrite Hd; run_H; rewrite String.eqb_refl; run_H; repeat split.
  - intros s w c H Hd Hc. apply String.eqb_neq in Hc.
    destruct s; cbv zeta; run_H; rewrite H; run_H; cbn in Hd, Hc;
      rewrite Hd; run_H; rewrite Hc; run_H; repeat split.
  - intros t r w.
    unfold handleFileChange_resume, schedule_release, getFile.
    cbv [mbind M_bind mret M_ret gets modify try_catch].
    destruct (performTranslation_settle_frame t (updated_message (get_file t w)) r w)
      as ([b Hb] & Ht & _ & _ & Hp & _).
    destruct (performTranslation_settle t (updated_message (get_file t w)) r w)
      as [res w1]. cbn in Hb, Ht, Hp |- *. subst res. split; [reflexivity|].
    split; [exact Hp | by rewrite Ht].
Qed.

(** C2: with the gate closed a second notification is dropped
    ([change_dropped_while_processing]), but the release scheduled by a
    notification whose content was unchanged is not cancelled: it fires
    while the next transformation is in flight, reopens the gate, and a
    further notification starts a second transformation while the first
    is still awaiting its answer. *)
Theorem stale_release_two_in_flight :
  let w := run_events sample_world stale_release_trace in
  inflight w = [File1; File2] /\ length (requests w) = 2%nat /\
  isProcessing w = true /\ timers w = 0%nat.
Proof. vm_compute. repeat split. Qed.

(* ------------------------------------------------------------------ *)
(** ** parseArgs *)

Lemma MODELS_undefined_key : MODELS "undefined" = Undefined.
Proof. reflexivity. Qed.

Ltac args_ind args IH :=
  induction args as [args IH]
    using (well_founded_ind (well_founded_ltof _ (@length string))).

(** A prefix that parses completely can be parsed first. *)
Lemma parseArgs_loop_app (pre rest : list string) :
  forall o f w o' f' w',
  parseArgs_loop o f pre w = (inr (o', f'), w') ->
  parseArgs_loop o f (pre ++ rest) w = parseArgs_loop o' f' rest w'.
Proof.
  revert rest. args_ind pre IH. intros rest o f w o' f' w' H.
  destruct pre as [|a pre'].
  - cbn in H. injection H as -> -> ->. reflexivity.
  - cbn [app parseArgs_loop] in H |- *.
    destruct (String.eqb a "--help" || String.eqb a "-h").
    { apply IH; [unfold ltof; cbn; lia | exact H]. }
    destruct (String.eqb a "--version" || String.eqb a "-v").
    { apply IH; [unfold ltof; cbn; lia | exact H]. }
    destruct (String.eqb a "--model").
    + destruct pre' as [|v pre''].
      * rewrite MODELS_undefined_key in H. run_M. discriminate.
      * cbn [app]. destruct (MODELS v); [apply IH; [unfold ltof; cbn; lia | exact H]..|].
        run_M. discriminate.
    + destruct (negb (startsWith a "--"));
        (apply IH; [unfold ltof; cbn; lia | exact H]).
Qed.

(** Parsing only writes diagnostics. *)
Lemma parseArgs_loop_frame (args : list string) :
  forall o f w, snd (parseArgs_loop o f args w) = set_log (log (snd (parseArgs_loop o f args w))) w.
Proof.
  args_ind args IH. intros o f w.
  destruct args as [|a rest].
  - destruct w; reflexivity.
  - cbn [parseArgs_loop].
    destruct (String.eqb a "--help" || String.eqb a "-h").
    { apply IH. unfold ltof; cbn; lia. }
    destruct (String.eqb a "--version" || String.eqb a "-v").
    { apply IH. unfold ltof; cbn; lia. }
    destruct (String.eqb a "--model").
    + destruct rest as [|v rest'].
      * rewrite MODELS_undefined_key. run_M. destruct w; reflexivity.
      * destruct (MODELS v); [apply IH; unfold ltof; cbn; lia..|].
        run_M. destruct w; reflexivity.
    + destruct (negb (startsWith a "--")); apply IH; unfold ltof; cbn; lia.
Qed.

Lemma startsWith_dd_h : startsWith "-h" "--" = false.
Proof. reflexivity. Qed.
Lemma startsWith_dd_v : startsWith "-v" "--" = false.
Proof. reflexivity. Qed.

Lemma MODELS_defined_not_flag (v : string) :
  MODELS v <> Undefined -> v <> "--model".
Proof. intros H ->. apply H. reflexivity. Qed.

(** An unknown "--" token outside the value position of "--model" can be
    removed without changing the parse. *)
Lemma parseArgs_loop_discard (t : string) (post pre : list string) :
  startsWith t "--" = true -> t <> "--help" -> t <> "--version" -> t <> "--model" ->
  forall o f w, last pre <> Some "--model" ->
  parseArgs_loop o f (pre ++ t :: post) w = parseArgs_loop o f (pre ++ post) w.
Proof.
  intros Ht Hh Hv Hm. args_ind pre IH. intros o f w Hlast.
  destruct pre as [|a pre'].
  - cbn [app parseArgs_loop].
    assert (t <> "-h") by (intros ->; discriminate).
    assert (t <> "-v") by (intros ->; discriminate).
    rewrite !(proj2 (String.eqb_neq _ _)) by assumption. cbn -[startsWith]. rewrite Ht. reflexivity.
  - assert (Hl : last pre' <> Some "--model").
    { destruct pre' as [|b pre'']; [discriminate|]. exact Hlast. }
    cbn [app parseArgs_loop].
    destruct (String.eqb a "--help" || String.eqb a "-h").
    { apply IH; [unfold ltof; cbn; lia | exact Hl]. }
    destruct (String.eqb a "--version" || String.eqb a "-v").
    { apply IH; [unfold ltof; cbn; lia | exact Hl]. }
    destruct (String.eqb a "--model") eqn:Ha.
    + apply String.eqb_eq in Ha as ->.
      destruct pre' as [|v pre'']; [contradiction Hlast; reflexivity|].
      cbn [app]. destruct (MODELS v); try reflexivity;
        (apply IH; [unfold ltof; cbn; lia|
                    destruct pre'' as [|b pre''']; [discriminate | exact Hlast]]).
    + destruct (negb (startsWith a "--")); (apply IH; [unfold ltof; cbn; lia | exact Hl]).
Qed.

(** On a successful parse the files are the [file_tokens]. *)
Lemma parseArgs_loop_files (args : list string) :
  forall o f prev w o' files w',
  prev <> Some "--model" ->
  parseArgs_loop o f args w = (inr (o', files), w') ->
  files = f ++ file_tokens prev args.
Proof.
  args_ind args IH. intros o f prev w o' files w' Hprev H.
  assert (Hkp : bool_decide (prev = Some "--model") = false) by (by apply bool_decide_eq_false).
  destruct args as [|a rest].
  - cbn in H. injection H as _ <- _. by rewrite app_nil_r.
  - cbn [parseArgs_loop] in H. cbn [file_tokens].
    destruct (String.eqb a "--help" || String.eqb a "-h") eqn:H1.
    { apply orb_true_iff in H1 as [E|E]; apply String.eqb_eq in E as ->;
        (eapply IH; [unfold ltof; cbn; lia | discriminate | exact H]). }
    destruct (String.eqb a "--version" || String.eqb a "-v") eqn:H2.
    { apply orb_true_iff in H2 as [E|E]; apply String.eqb_eq in E as ->;
        (eapply IH; [unfold ltof; cbn; lia | discriminate | exact H]). }
    apply orb_false_iff in H1 as [_ H1h]. apply orb_false_iff in H2 as [_ H2v].
    destruct (String.eqb a "--model") eqn:H3.
    + apply String.eqb_eq in H3 as ->. cbn [kept_token]. rewrite app_nil_l.
      destruct rest as [|v rest'].
      * rewrite MODELS_undefined_key in H. run_M. discriminate.
      * destruct (MODELS v) eqn:Hv;
          [..|run_M; discriminate];
          (assert (v <> "--model") by (apply MODELS_defined_not_flag; by rewrite Hv));
          cbn [file_tokens];
          (replace (kept_token (Some "--model") v) with false
             by (unfold kept_token; rewrite bool_decide_eq_true_2 by reflexivity;
                 by rewrite andb_false_r));
          rewrite app_nil_l;
          (eapply IH; [unfold ltof; cbn; lia | congruence | exact H]).
    + apply String.eqb_neq in H3.
      destruct (startsWith a "--") eqn:H4; cbn [negb] in H.
      * replace (kept_token prev a) with false by (unfold kept_token; by rewrite H4).
        rewrite app_nil_l. eapply IH; [unfold ltof; cbn; lia | congruence | exact H].
      * replace (kept_token prev a) with true
          by (unfold kept_token; by rewrite H4, H1h, H2v, Hkp).
        rewrite (IH rest ltac:(unfold ltof; cbn; lia) _ _ (Some a) _ _ _ _
                   ltac:(congruence) H).
        by rewrite <- app_assoc.
Qed.

(** C10 (as amended): an unknown token starting with "--" that is not the
    value of "--model" is dropped without any effect on the parse; on a
    successful parse the files are exactly the tokens that do not start
    with "--", are not "-h" or "-v", and do not follow "--model" (that
    token is consumed as the model name). *)
Theorem parseArgs_token_classes :
  (forall pre t post w,
     startsWith t "--" = true -> t <> "--help" -> t <> "--version" -> t <> "--model" ->
     last pre <> Some "--model" ->
     parseArgs (pre ++ t :: post) w = parseArgs (pre ++ post) w) /\
  (forall args w opts files w',
     parseArgs args w = (inr (opts, files), w') -> files = file_tokens None args).
Proof.
  split.
  - intros pre t post w Ht Hh Hv Hm Hl. unfold parseArgs. by apply parseArgs_loop_discard.
  - intros args w opts files w' H. unfold parseArgs in H.
    apply (parseArgs_loop_files args default_options [] None w opts files w'); [discriminate | exact H].
Qed.

(** C10 as stated fails: the model name after "--model" does not start
    with "--" and is not "-h" or "-v", yet it is not collected as a file. *)
Lemma parseArgs_model_value_not_a_file :
  startsWith "haiku-4.5" "--" = false /\
  fst (parseArgs ["--model"; "haiku-4.5"; "a.md"; "b.md"] sample_world)
    = inr (mkOptions "haiku-4.5" false false, ["a.md"; "b.md"]).
Proof. split; vm_compute; reflexivity. Qed.

(* ------------------------------------------------------------------ *)
(** ** main *)

Lemma parseArgs_frame (args : list string) (w : World) :
  snd (parseArgs args w) = set_log (log (snd (parseArgs args w))) w.
Proof. apply parseArgs_loop_frame. Qed.

Lemma main_after_parse (home : string) (boot : api_response) (args : list string) (w0 : World)
    (opts : Options) (files : list string) (wp : World) :
  parseArgs args w0 = (inr (opts, files), wp) ->
  main home boot args w0 = main_checked home boot opts files wp.
Proof.
  intros H. unfold main. cbv [mbind M_bind]. rewrite H. reflexivity.
Qed.

Lemma parseArgs_ok_world (args : list string) (w0 : World) opts files wp :
  parseArgs args w0 = (inr (opts, files), wp) -> wp = set_log (log wp) w0.
Proof.
  intros H. pose proof (parseArgs_frame args w0) as F. rewrite H in F. exact F.
Qed.

(** C9: the check [!MODELS[modelName]] lets through a "--model" value
    that is not one of the five model names but a property every JS
    object inherits, such as "constructor": [main] then completes its
    startup without an error, with that property as the model.  Apart
    from that: a value [MODELS] does not map at all ends the process with
    code 1 wherever it appears; "--help" (and likewise "--version") ends
    it with code 0 before the file count is checked; and when neither is
    given, a file count other than two, a missing file or an unreadable
    key file ends it with code 1.  Each fatal exit prints an error, sends
    no request and leaves the disk untouched. *)
Theorem main_startup_fatal :
  (let w0 := init_world sample_disk_both sample_mtimes [] 10 in
   let args := ["--model"; "constructor"; "polish.md"; "english.md"] in
   fst (main "/home/u" sample_reply args w0) = inr tt /\
   modelId (snd (main "/home/u" sample_reply args w0)) = Inherited "constructor" /\
   requests (snd (main "/home/u" sample_reply args w0)) = [] /\
   existsb is_log_error (log (snd (main "/home/u" sample_reply args w0))) = false) /\
  fst (main "/home/u" (ApiMessage []) ["--help"; "polish.md"]
         (init_world sample_disk sample_mtimes [] 10)) = inl (ProcessExit 0) /\
  forall (home : string) (boot : api_response) (w0 : World),
  (forall pre rest opts files wp,
     parseArgs pre w0 = (inr (opts, files), wp) ->
     MODELS (hd "undefined" rest) = Undefined ->
     fatal_exit 1 w0 (main home boot (pre ++ "--model" :: rest) w0)) /\
  (forall args opts files wp,
     parseArgs args w0 = (inr (opts, files), wp) ->
     help opts = false -> version opts = false ->
     (length files <> 2%nat \/ (exists p, p ∈ files /\ disk w0 !! p = None)
      \/ disk w0 !! keyPath home = None) ->
     fatal_exit 1 w0 (main home boot args w0)).
Proof.
  split; [vm_compute; repeat split|].
  split; [vm_compute; reflexivity|].
  intros home boot w0.
  split.
  - intros pre rest opts files wp H Hm.
    pose proof (parseArgs_ok_world _ _ _ _ _ H) as Hw.
    unfold main, parseArgs in *. cbv [mbind M_bind].
    rewrite (parseArgs_loop_app pre ("--model" :: rest) _ _ _ _ _ _ H).
    cbn [parseArgs_loop]. destruct rest as [|v rest]; cbn [hd] in Hm; rewrite ?Hm;
      run_M; rewrite Hw; cbn; (split; [reflexivity|]); (split; [reflexivity|]);
      (split; [reflexivity|]); cbn [snd log set_log];
      rewrite existsb_app, orb_true_r; reflexivity.
  - intros args opts files wp H Hh Hv Hbad.
    pose proof (parseArgs_ok_world _ _ _ _ _ H) as Hw.
    rewrite (main_after_parse _ _ _ _ _ _ _ H). unfold main_checked. rewrite Hh, Hv, Hw.
    unfold fatal_exit.
    destruct files as [|p1 [|p2 [|p3 rest]]];
      [| |unfold existsSync, getApiKey, readFileSync, console_error; run_H|];
      try (run_H; cbn [snd fst log set_log disk requests];
           split; [reflexivity|]; split; [reflexivity|]; split; [reflexivity|];
           rewrite !existsb_app, ?orb_true_r; reflexivity).
    destruct (disk w0 !! p1) as [c1|] eqn:E1; run_H;
      [destruct (disk w0 !! p2) as [c2|] eqn:E2; run_H|];
      [destruct (disk w0 !! keyPath home) as [k|] eqn:Ek; run_H| |].
    + exfalso. destruct Hbad as [Hl|[(p & Hp & Hn)|Hk]]; [done| |congruence].
      apply elem_of_cons in Hp as [->|Hp]; [congruence|].
      apply list_elem_of_singleton in Hp as ->. congruence.
    + split; [reflexivity|]; split; [reflexivity|]; split; [reflexivity|].
      rewrite !existsb_app, ?orb_true_r; reflexivity.
    + split; [reflexivity|]; split; [reflexivity|]; split; [reflexivity|].
      rewrite !existsb_app, ?orb_true_r; reflexivity.
    + split; [reflexivity|]; split; [reflexivity|]; split; [reflexivity|].
      rewrite !existsb_app, ?orb_true_r; reflexivity.
Qed.

Lemma handleFileChange_resume_requests (t : side) (r : api_response) (w : World) :
  requests (snd (handleFileChange_resume t r w)) = requests w.
Proof.
  unfold handleFileChange_resume, schedule_release, getFile.
  cbv [mbind M_bind mret M_ret gets modify try_catch].
  destruct (performTranslation_settle_frame t (updated_message (get_file t w)) r w)
    as ([b Hb] & _ & _ & Hreq & _).
  destruct (performTranslation_settle t (updated_message (get_file t w)) r w) as [res w1].
  cbn in Hb, Hreq |- *. subst res. exact Hreq.
Qed.

(** Only a change notification can send a request. *)
Lemma step_requests (w : World) (e : event) :
  is_change e = false -> requests (step w e) = requests w.
Proof.
  destruct e as [s text|s|r|]; intros H; try discriminate; unfold step.
  - reflexivity.
  - destruct (inflight w) as [|t rest]; [reflexivity|].
    cbn [set_now requests]. unfold run.
    rewrite handleFileChange_resume_requests. reflexivity.
  - destruct (timers w); reflexivity.
Qed.

Lemma run_events_requests (es : list event) (w : World) :
  Forall (fun e => is_change e = false) es -> requests (run_events w es) = requests w.
Proof.
  revert w. induction es as [|e es IH]; intros w H; [reflexivity|].
  inversion H as [|? ? He Hes]; subst. cbn [run_events fold_left].
  unfold run_events in IH. rewrite IH by exact Hes. by apply step_requests.
Qed.

(** C5: when [main] gets through its startup checks, it has read two
    existing files (the two file operands of the argument list).  If
    exactly one of them has content (its trimmed text is non-empty), one
    request is sent right away, with the non-empty file's snapshot as
    source and the empty one's as target, after the "auto-translating"
    notice is logged; if both or neither have content, no request is sent.
    In every case no further request is sent until a change notification
    arrives. *)
Theorem main_bootstrap (home : string) (boot : api_response) (args : list string) (w0 : World) :
  fst (main home boot args w0) = inr tt ->
  exists opts wp p1 c1 t1 p2 c2 t2,
    parseArgs args w0 = (inr (opts, [p1; p2]), wp) /\
    disk w0 !! p1 = Some c1 /\ disk w0 !! p2 = Some c2 /\
    mtimes w0 !! p1 = Some t1 /\ mtimes w0 !! p2 = Some t2 /\
    let w1 := snd (main home boot args w0) in
    let m := MODELS (model opts) in
    (has_content c1 = true -> has_content c2 = false ->
       requests w1 = requests w0 ++
         [translateFile_request (mkFileState p1 c1 t1) (mkFileState p2 c2 t2) m] /\
       LogLine (auto_message p2 p1) ∈ log w1) /\
    (has_content c2 = true -> has_content c1 = false ->
       requests w1 = requests w0 ++
         [translateFile_request (mkFileState p2 c2 t2) (mkFileState p1 c1 t1) m] /\
       LogLine (auto_message p1 p2) ∈ log w1) /\
    (has_content c1 = has_content c2 -> requests w1 = requests w0) /\
    (forall es, Forall (fun e => is_change e = false) es ->
       requests (run_events w1 es) = requests w1).
Proof.
  intros H.
  destruct (parseArgs args w0) as [[e|[opts files]] wp] eqn:Hp.
  { unfold main in H. cbv [mbind M_bind] in H. rewrite Hp in H. discriminate. }
  pose proof (parseArgs_ok_world _ _ _ _ _ Hp) as Hw.
  rewrite (main_after_parse _ _ _ _ _ _ _ Hp) in H |- *.
  unfold main_checked in H |- *.
  destruct (help opts); [unfold showHelp, console_log in H; run_H; discriminate|].
  destruct (version opts); [unfold showVersion, console_log in H; run_H; discriminate|].
  destruct files as [|p1 [|p2 [|p3 rest]]];
    try (unfold console_error in H; run_H; discriminate).
  exists opts, wp, p1.
  rewrite Hw in H |- *.
  unfold existsSync, getApiKey, readFileSync, statSync_mtimeMs, setFile, console_log,
    console_error in H |- *.
  run_H.
  destruct (disk w0 !! p1) as [c1|] eqn:E1; run_H; [|congruence].
  destruct (disk w0 !! p2) as [c2|] eqn:E2; run_H; [|congruence].
  destruct (disk w0 !! keyPath home) as [k|] eqn:Ek; run_H; [|congruence].
  rewrite ?E1, ?E2 in H |- *; run_H.
  destruct (mtimes w0 !! p1) as [t1|] eqn:T1; run_H; [|congruence].
  rewrite ?E1, ?E2, ?T1 in H |- *; run_H.
  destruct (mtimes w0 !! p2) as [t2|] eqn:T2; run_H; [|congruence].
  rewrite ?E1, ?E2, ?T1, ?T2 in H |- *; run_H.
  exists c1, t1, p2, c2, t2.
  do 5 (split; [reflexivity||assumption|]).
  destruct (has_content c1) eqn:H1, (has_content c2) eqn:H2; run_H.
  all: try match goal with |- context [performTranslation_settle ?t ?m ?r ?w] =>
       destruct (performTranslation_settle_frame t m r w)
         as ([b Hb] & _ & _ & Hreq & _ & _ & l & Hl);
       destruct (performTranslation_settle t m r w) as [res w']; cbn in Hb; subst res end.
  all: cbn -[String.append lookup].
  all: split; [|split; [|split]]; intros; try discriminate.
  all: try (rewrite run_events_requests by assumption; reflexivity).
  all: try reflexivity.
  all: cbn -[String.append lookup] in Hreq, Hl; rewrite Hreq, Hl.
  all: split; [reflexivity|set_solver].
Qed.

Lemma main_bootstrap_witness :
  fst (main "/home/u" (ApiMessage [SText "Hello world!"]) ["polish.md"; "english.md"]
         (init_world sample_disk sample_mtimes [] 10)) = inr tt /\
  exists opts wp p1 c1 t1 p2 c2 t2,
    parseArgs ["polish.md"; "english.md"] (init_world sample_disk sample_mtimes [] 10)
      = (inr (opts, [p1; p2]), wp) /\
    disk (init_world sample_disk sample_mtimes [] 10) !! p1 = Some c1 /\
    disk (init_world sample_disk sample_mtimes [] 10) !! p2 = Some c2 /\
    mtimes (init_world sample_disk sample_mtimes [] 10) !! p1 = Some t1 /\
    mtimes (init_world sample_disk sample_mtimes [] 10) !! p2 = Some t2 /\
    let w1 := snd (main "/home/u" (ApiMessage [SText "Hello world!"])
                     ["polish.md"; "english.md"] (init_world sample_disk sample_mtimes [] 10)) in
    let m := MODELS (model opts) in
    (has_content c1 = true -> has_content c2 = false ->
       requests w1 = requests (init_world sample_disk sample_mtimes [] 10) ++
         [translateFile_request (mkFileState p1 c1 t1) (mkFileState p2 c2 t2) m] /\
       LogLine (auto_message p2 p1) ∈ log w1) /\
    (has_content c2 = true -> has_content c1 = false ->
       requests w1 = requests (init_world sample_disk sample_mtimes [] 10) ++
         [translateFile_request (mkFileState p2 c2 t2) (mkFileState p1 c1 t1) m] /\
       LogLine (auto_message p1 p2) ∈ log w1) /\
    (has_content c1 = has_content c2 ->
       requests w1 = requests (init_world sample_disk sample_mtimes [] 10)) /\
    (forall es, Forall (fun e => is_change e = false) es ->
       requests (run_events w1 es) = requests w1).
Proof.
  assert (H : fst (main "/home/u" (ApiMessage [SText "Hello world!"]) ["polish.md"; "english.md"]
                (init_world sample_disk sample_mtimes [] 10)) = inr tt)
    by (vm_compute; reflexivity).
  split; [exact H|]. exact (main_bootstrap _ _ _ _ H).
Defined.

(* ================================================================== *)
(** * Further properties of the code *)

(* ------------------------------------------------------------------ *)
(** ** parseArgs: options and rejection *)

Lemma last_or_cons (d v : string) (l : list string) : last_or d (v :: l) = last_or v l.
Proof.
  unfold last_or. destruct l as [|x l]; [reflexivity|].
  change (last (v :: x :: l)) with (last (x :: l)).
  destruct (last (x :: l)) eqn:E; [reflexivity|]. by apply last_None in E.
Qed.

Lemma last_cons_ne (a x : string) (l : list string) :
  a <> x -> (last (a :: l) = Some x <-> last l = Some x).
Proof. intros Hne. destruct l as [|b l]; cbn; [split; congruence | reflexivity]. Qed.

Lemma parseArgs_loop_options (args : list string) :
  forall o f prev w o' files w',
  prev <> Some "--model" ->
  parseArgs_loop o f args w = (inr (o', files), w') ->
  o' = mkOptions (last_or (model o) (model_values prev args))
                 (help o || existsb is_help_flag (flag_tokens prev args))
                 (version o || existsb is_version_flag (flag_tokens prev args)).
Proof.
  args_ind args IH. intros o f prev w o' files w' Hprev H.
  assert (Hkp : bool_decide (prev = Some "--model") = false) by (by apply bool_decide_eq_false).
  destruct args as [|a rest].
  - cbn in H. injection H as <- _ _. destruct o; cbn. by rewrite !orb_false_r.
  - cbn [parseArgs_loop] in H. cbn [flag_tokens model_values]. rewrite Hkp. cbn [app existsb].
    change (String.eqb a "--help" || String.eqb a "-h") with (is_help_flag a) in H.
    change (String.eqb a "--version" || String.eqb a "-v") with (is_version_flag a) in H.
    destruct (is_help_flag a) eqn:H1.
    { rewrite (IH rest ltac:(unfold ltof; cbn; lia) _ _ (Some a) _ _ _ _
                 ltac:(intros [= ->]; discriminate) H).
      unfold is_help_flag in H1.
      apply orb_true_iff in H1 as [E|E]; apply String.eqb_eq in E as ->;
        cbn; destruct (help o), (version o); reflexivity. }
    destruct (is_version_flag a) eqn:H2.
    { rewrite (IH rest ltac:(unfold ltof; cbn; lia) _ _ (Some a) _ _ _ _
                 ltac:(intros [= ->]; discriminate) H).
      unfold is_version_flag in H2.
      apply orb_true_iff in H2 as [E|E]; apply String.eqb_eq in E as ->;
        cbn; destruct (help o), (version o); reflexivity. }
    destruct (String.eqb a "--model") eqn:H3.
    + apply String.eqb_eq in H3 as ->.
      destruct rest as [|v rest'].
      * rewrite MODELS_undefined_key in H. run_M. discriminate.
      * cbn [flag_tokens model_values].
        rewrite (bool_decide_eq_true_2 (Some "--model" = Some "--model")) by reflexivity.
        cbn [app existsb].
        destruct (MODELS v) eqn:Hv;
          [..|run_M; discriminate];
          (assert (v <> "--model") by (apply MODELS_defined_not_flag; by rewrite Hv));
          rewrite (IH rest' ltac:(unfold ltof; cbn; lia) _ _ (Some v) _ _ _ _
                     ltac:(congruence) H);
          cbn [model help version]; rewrite last_or_cons; reflexivity.
    + apply String.eqb_neq in H3.
      cbn [orb].
      destruct (negb (startsWith a "--"));
        (rewrite (IH rest ltac:(unfold ltof; cbn; lia) _ _ (Some a) _ _ _ _
                    ltac:(congruence) H); reflexivity).
Qed.

Lemma parseArgs_loop_fails (args : list string) :
  forall o f prev w,
  prev <> Some "--model" ->
  ((exists e, fst (parseArgs_loop o f args w) = inl e) <->
   (exists v, v ∈ model_values prev args /\ MODELS v = Undefined) \/ last args = Some "--model").
Proof.
  args_ind args IH. intros o f prev w Hprev.
  assert (Hkp : bool_decide (prev = Some "--model") = false) by (by apply bool_decide_eq_false).
  destruct args as [|a rest].
  - cbn. split; [intros [e He]; discriminate|].
    intros [(v & Hv & _)|Hl]; [by apply not_elem_of_nil in Hv | discriminate].
  - cbn [parseArgs_loop model_values]. rewrite Hkp. cbn [app].
    destruct (String.eqb a "--help" || String.eqb a "-h") eqn:H1.
    { assert (a <> "--model") by (intros ->; discriminate).
      rewrite last_cons_ne by assumption.
      apply IH; [unfold ltof; cbn; lia | congruence]. }
    destruct (String.eqb a "--version" || String.eqb a "-v") eqn:H2.
    { assert (a <> "--model") by (intros ->; discriminate).
      rewrite last_cons_ne by assumption.
      apply IH; [unfold ltof; cbn; lia | congruence]. }
    destruct (String.eqb a "--model") eqn:H3.
    + apply String.eqb_eq in H3 as ->.
      destruct rest as [|v rest'].
      * rewrite MODELS_undefined_key. run_M. split; [intros _; right; reflexivity|].
        intros _. eexists; reflexivity.
      * cbn [model_values].
        rewrite (bool_decide_eq_true_2 (Some "--model" = Some "--model")) by reflexivity.
        cbn [app].
        change (last ("--model" :: v :: rest')) with (last (v :: rest')).
        destruct (MODELS v) eqn:Hv.
        1,2: (assert (v <> "--model") by (apply MODELS_defined_not_flag; by rewrite Hv));
          rewrite last_cons_ne by assumption;
          rewrite (IH rest' ltac:(unfold ltof; cbn; lia) _ _ (Some v) _ ltac:(congruence));
          split; (intros [(x & Hx & Hm)|Hl]; [|by right]);
          [left; exists x; split; [by apply elem_of_cons; right | exact Hm]
          |apply elem_of_cons in Hx as [->|Hx]; [congruence|];
           left; exists x; split; [exact Hx | exact Hm]].
        run_M. split; [intros _; left; exists v; split; [apply elem_of_cons; by left | exact Hv]|].
        intros _. eexists; reflexivity.
    + apply String.eqb_neq in H3.
      rewrite last_cons_ne by assumption.
      destruct (negb (startsWith a "--"));
        (apply IH; [unfold ltof; cbn; lia | congruence]).
Qed.

Lemma parseArgs_loop_rejects (args : list string) :
  forall o f w e,
  fst (parseArgs_loop o f args w) = inl e ->
  e = ProcessExit 1 /\
  exists v, MODELS v = Undefined /\
    snd (parseArgs_loop o f args w) = set_log (log w ++ [LogError (invalid_model_message v)]) w.
Proof.
  args_ind args IH. intros o f w e H.
  destruct args as [|a rest]; [discriminate|].
  cbn [parseArgs_loop] in H |- *.
  destruct (String.eqb a "--help" || String.eqb a "-h").
  { apply IH; [unfold ltof; cbn; lia | exact H]. }
  destruct (String.eqb a "--version" || String.eqb a "-v").
  { apply IH; [unfold ltof; cbn; lia | exact H]. }
  destruct (String.eqb a "--model").
  - destruct rest as [|v rest'].
    + rewrite MODELS_undefined_key in H |- *. unfold console_error, process_exit in *. run_M.
      injection H as <-. split; [reflexivity|]. exists "undefined". split; [reflexivity|].
      reflexivity.
    + destruct (MODELS v) eqn:Hv;
        [apply IH; [unfold ltof; cbn; lia | exact H]..|].
      unfold console_error, process_exit in *. run_M.
      injection H as <-. split; [reflexivity|]. exists v. split; [exact Hv | reflexivity].
  - destruct (negb (startsWith a "--")); (apply IH; [unfold ltof; cbn; lia | exact H]).
Qed.

(** [parseArgs] on a successful parse: "--help"/"-h" and "--version"/"-v"
    anywhere in option position set their flags, and the model is the
    last token given after "--model", "sonnet-4.5" when there is none. *)
Theorem parseArgs_options (args : list string) (w : World) (opts : Options)
    (files : list string) (w' : World) :
  parseArgs args w = (inr (opts, files), w') ->
  opts = mkOptions (last_or "sonnet-4.5" (model_values None args))
                   (existsb is_help_flag (flag_tokens None args))
                   (existsb is_version_flag (flag_tokens None args)).
Proof.
  intros H. unfold parseArgs in H.
  apply (parseArgs_loop_options args default_options [] None w opts files w'); [discriminate | exact H].
Qed.

Lemma parseArgs_options_witness :
  parseArgs ["a.md"; "--model"; "haiku-4.5"; "-v"; "--model"; "opus-4"; "b.md"] sample_world
    = (inr (mkOptions "opus-4" false true, ["a.md"; "b.md"]), sample_world) /\
  mkOptions "opus-4" false true
  = mkOptions (last_or "sonnet-4.5" (model_values None ["a.md"; "--model"; "haiku-4.5"; "-v"; "--model"; "opus-4"; "b.md"]))
      (existsb is_help_flag (flag_tokens None ["a.md"; "--model"; "haiku-4.5"; "-v"; "--model"; "opus-4"; "b.md"]))
      (existsb is_version_flag (flag_tokens None ["a.md"; "--model"; "haiku-4.5"; "-v"; "--model"; "opus-4"; "b.md"])).
Proof.
  assert (H : parseArgs ["a.md"; "--model"; "haiku-4.5"; "-v"; "--model"; "opus-4"; "b.md"] sample_world
              = (inr (mkOptions "opus-4" false true, ["a.md"; "b.md"]), sample_world))
    by (vm_compute; reflexivity).
  split; [exact H|]. exact (parseArgs_options _ _ _ _ _ H).
Defined.

(** [parseArgs] fails exactly when some token after "--model" is not a
    key of [MODELS], or the list ends in "--model". *)
Theorem parseArgs_fails_iff (args : list string) (w : World) :
  (exists e, fst (parseArgs args w) = inl e) <->
  (exists v, v ∈ model_values None args /\ MODELS v = Undefined) \/ last args = Some "--model".
Proof. unfold parseArgs. apply parseArgs_loop_fails. discriminate. Qed.

(** When [parseArgs] fails, it has printed exactly one error, naming a
    model value that [MODELS] does not map, and exits with code 1;
    nothing else in the world changes. *)
Theorem parseArgs_rejects (args : list string) (w : World) (e : exn) :
  fst (parseArgs args w) = inl e ->
  e = ProcessExit 1 /\
  exists v, MODELS v = Undefined /\
    snd (parseArgs args w) = set_log (log w ++ [LogError (invalid_model_message v)]) w.
Proof. unfold parseArgs. apply parseArgs_loop_rejects. Qed.

Lemma parseArgs_rejects_witness :
  fst (parseArgs ["a.md"; "--model"; "gpt-4"; "b.md"] sample_world) = inl (ProcessExit 1) /\
  ProcessExit 1 = ProcessExit 1 /\
  exists v, MODELS v = Undefined /\
    snd (parseArgs ["a.md"; "--model"; "gpt-4"; "b.md"] sample_world)
      = set_log (log sample_world ++ [LogError (invalid_model_message v)]) sample_world.
Proof.
  assert (H : fst (parseArgs ["a.md"; "--model"; "gpt-4"; "b.md"] sample_world)
              = inl (ProcessExit 1)) by (vm_compute; reflexivity).
  split; [exact H|]. exact (parseArgs_rejects _ _ _ H).
Defined.

(* ------------------------------------------------------------------ *)
(** ** The change handler, step by step *)

Lemma step_change_read_error (s : side) (w : World) :
  isProcessing w = false -> disk w !! path (get_file s w) = None ->
  step w (Change s)
  = set_now (now w + 1)
      (set_timers (S (timers w))
         (set_log (log w ++ [LogError ("Error reading file: " +:+ show_exn (ENOENT (path (get_file s w))))])
            (set_isProcessing true w))).
Proof.
  intros Hidle Hgone.
  unfold step, run, handleFileChange, handleFileChange_try, getFile, readFileSync,
    setProcessing, schedule_release, console_error.
  destruct s; run_H; rewrite Hidle; run_H; rewrite Hgone; run_H; reflexivity.
Qed.

Lemma step_change_same (s : side) (w : World) :
  isProcessing w = false -> disk w !! path (get_file s w) = Some (content (get_file s w)) ->
  step w (Change s)
  = set_now (now w + 1) (set_timers (S (timers w)) (set_isProcessing false (set_isProcessing true w))).
Proof.
  intros Hidle Hsame.
  unfold step, run, handleFileChange, handleFileChange_try, getFile, readFileSync,
    setProcessing, schedule_release.
  destruct s; run_H; rewrite Hidle; run_H; rewrite Hsame; run_H;
    rewrite String.eqb_refl; run_H; reflexivity.
Qed.

Lemma step_change_changed (s : side) (w : World) (c : string) :
  isProcessing w = false -> disk w !! path (get_file s w) = Some c -> c <> content (get_file s w) ->
  let f := mkFileState (path (get_file s w)) c (now w) in
  step w (Change s)
  = set_now (now w + 1)
      (set_inflight (inflight w ++ [other s])
         (set_requests (requests w ++ [translateFile_request f (get_file (other s) w) (modelId w)])
            (set_log (log w ++ [LogLine (change_prefix f)])
               (set_file s f (set_isProcessing true w))))).
Proof.
  intros Hidle Hread Hdiff. cbv zeta.
  unfold step, run, handleFileChange, handleFileChange_try, getFile, readFileSync,
    setProcessing, performTranslation_start, client_create, console_log, Date_now, setFile.
  apply String.eqb_neq in Hdiff.
  destruct s; run_H; rewrite Hidle; run_H; rewrite Hread; run_H; rewrite Hdiff; run_H;
    reflexivity.
Qed.

(** Every way a change notification can go. *)
Lemma step_change_cases (s : side) (w : World) :
  (isProcessing w = true /\ step w (Change s) = set_now (now w + 1) w) \/
  (isProcessing w = false /\ disk w !! path (get_file s w) = None /\
   step w (Change s)
   = set_now (now w + 1)
       (set_timers (S (timers w))
          (set_log (log w ++ [LogError ("Error reading file: " +:+ show_exn (ENOENT (path (get_file s w))))])
             (set_isProcessing true w)))) \/
  (isProcessing w = false /\ disk w !! path (get_file s w) = Some (content (get_file s w)) /\
   step w (Change s)
   = set_now (now w + 1) (set_timers (S (timers w)) (set_isProcessing false (set_isProcessing true w)))) \/
  (exists c, isProcessing w = false /\ disk w !! path (get_file s w) = Some c /\
   c <> content (get_file s w) /\
   step w (Change s)
   = set_now (now w + 1)
       (set_inflight (inflight w ++ [other s])
          (set_requests (requests w ++ [translateFile_request (mkFileState (path (get_file s w)) c (now w))
                                          (get_file (other s) w) (modelId w)])
             (set_log (log w ++ [LogLine (change_prefix (mkFileState (path (get_file s w)) c (now w)))])
                (set_file s (mkFileState (path (get_file s w)) c (now w)) (set_isProcessing true w)))))).
Proof.
  destruct (isProcessing w) eqn:Hp.
  { left. split; [reflexivity|]. by apply change_dropped_while_processing. }
  right. destruct (disk w !! path (get_file s w)) as [c|] eqn:Hd.
  - right. destruct (decide (c = content (get_file s w))) as [->|Hne].
    + left. split; [reflexivity|]. split; [reflexivity|]. by apply step_change_same.
    + right. exists c. split; [reflexivity|]. split; [reflexivity|]. split; [exact Hne|].
      by apply step_change_changed.
  - left. split; [reflexivity|]. split; [reflexivity|]. by apply step_change_read_error.
Qed.

Lemma step_settle_written (t : side) (rest : list side) (r : api_response) (w : World) (text : string) :
  inflight w = t :: rest -> response_text r = Some text ->
  existsb (String.eqb (path (get_file t w))) (readonly w) = false ->
  step w (Settle r)
  = set_now (now w + 1)
      (set_timers (S (timers w))
         (set_log (log w ++ [LogSucceed (updated_message (get_file t w))])
            (set_disk (<[path (get_file t w) := stripMarkdownCodeBlocks text]> (disk w))
               (set_file t (mkFileState (path (get_file t w)) (stripMarkdownCodeBlocks text) (now w))
                  (set_inflight rest w))))).
Proof.
  intros Hin Hr Hro. unfold step. rewrite Hin. unfold run, handleFileChange_resume, schedule_release, getFile.
  cbv [mbind M_bind mret M_ret gets modify try_catch].
  assert (Hro' : existsb (String.eqb (path (get_file t (set_inflight rest w))))
                   (readonly (set_inflight rest w)) = false) by (destruct t; exact Hro).
  rewrite (performTranslation_settle_written t _ r (set_inflight rest w) text Hr Hro').
  destruct t; reflexivity.
Qed.

Lemma performTranslation_settle_meta (tgt : side) (msg : string) (r : api_response) (w : World) :
  let w' := snd (performTranslation_settle tgt msg r w) in
  path (file1 w') = path (file1 w) /\ path (file2 w') = path (file2 w) /\
  modelId w' = modelId w /\ readonly w' = readonly w /\ mtimes w' = mtimes w /\
  (disk w' = disk w \/ exists x, disk w' = <[path (get_file tgt w) := x]> (disk w)).
Proof.
  cbv zeta.
  destruct (response_text r) as [text|] eqn:Hr.
  - destruct (existsb (String.eqb (path (get_file tgt w))) (readonly w)) eqn:Hro.
    + rewrite (performTranslation_settle_write_refused tgt msg r w text Hr Hro).
      destruct tgt; cbn; repeat split; left; reflexivity.
    + rewrite (performTranslation_settle_written tgt msg r w text Hr Hro).
      destruct tgt; cbn; repeat split; right; eexists; reflexivity.
  - destruct (performTranslation_settle_rejected tgt msg r w Hr) as [e ->].
    cbn; repeat split; left; reflexivity.
Qed.

Lemma step_timer_frame (w : World) :
  disk (step w TimerFires) = disk w /\ file1 (step w TimerFires) = file1 w /\
  file2 (step w TimerFires) = file2 w /\ requests (step w TimerFires) = requests w.
Proof. unfold step. destruct (timers w); repeat split. Qed.

Lemma run_events_cons (w : World) (e : event) (es : list event) :
  run_events w (e :: es) = run_events (step w e) es.
Proof. reflexivity. Qed.

Lemma run_events_app (w : World) (es1 es2 : list event) :
  run_events w (es1 ++ es2) = run_events (run_events w es1) es2.
Proof. unfold run_events. apply fold_left_app. Qed.

Lemma run_timers_frame (n : nat) (w : World) :
  disk (run_events w (repeat TimerFires n)) = disk w /\
  file1 (run_events w (repeat TimerFires n)) = file1 w /\
  file2 (run_events w (repeat TimerFires n)) = file2 w /\
  requests (run_events w (repeat TimerFires n)) = requests w.
Proof.
  revert w. induction n as [|n IH]; intros w; [repeat split|].
  cbn [repeat]. rewrite run_events_cons.
  destruct (IH (step w TimerFires)) as (-> & -> & -> & ->).
  apply step_timer_frame.
Qed.

(** A notification for a file whose snapshot matches the disk sends no
    request, whether the gate is open or not. *)
Lemma change_synced_no_request (s : side) (w : World) :
  disk w !! path (get_file s w) = Some (content (get_file s w)) ->
  requests (step w (Change s)) = requests w.
Proof.
  intros Hsync.
  destruct (step_change_cases s w)
    as [(_ & ->)|[(_ & Hn & _)|[(_ & _ & ->)|(c & _ & Hc & Hne & _)]]].
  - reflexivity.
  - congruence.
  - reflexivity.
  - congruence.
Qed.

(** A change notification never writes to disk; a settling request writes
    at most the path of its target snapshot. *)
Lemma step_disk (w : World) (e : event) :
  is_edit e = false ->
  disk (step w e) = disk w \/
  exists r t rest x, e = Settle r /\ inflight w = t :: rest /\
    disk (step w e) = <[path (get_file t w) := x]> (disk w).
Proof.
  intros He. destruct e as [s text|s|r|]; [discriminate| | |].
  - left. destruct (step_change_cases s w)
      as [(_ & ->)|[(_ & _ & ->)|[(_ & _ & ->)|(c & _ & _ & _ & ->)]]];
      destruct s; reflexivity.
  - unfold step. destruct (inflight w) as [|t rest] eqn:Hin; [left; reflexivity|]. unfold run, handleFileChange_resume, schedule_release, getFile.
    cbv [mbind M_bind mret M_ret gets modify try_catch].
    destruct (performTranslation_settle_meta t (updated_message (get_file t (set_inflight rest w))) r
                (set_inflight rest w)) as (_ & _ & _ & _ & _ & Hd).
    destruct (performTranslation_settle t (updated_message (get_file t (set_inflight rest w))) r
                (set_inflight rest w)) as [[e|b] w1]; cbn in Hd |- *;
      (destruct Hd as [Hd|[x Hd]]; [left; exact Hd|right; exists r, t, rest, x; split; [reflexivity|];
        split; [reflexivity|]; destruct t; exact Hd]).
  - left. unfold step. destruct (timers w); reflexivity.
Qed.





(** A suspended handler whose request settles with a text answer, when
    the target file can be written: the sanitized answer is written to the
    target's path, the target snapshot gets it (stamped with the current
    time), the other snapshot is untouched, a success line is printed and
    one 100 ms release is scheduled; the gate itself stays as it was. *)
Theorem handleFileChange_settled (t : side) (rest : list side) (r : api_response) (w : World)
    (text : string)
    (Hin : inflight w = t :: rest) (Hr : response_text r = Some text)
    (Hro : existsb (String.eqb (path (get_file t w))) (readonly w) = false) :
  let w' := step w (Settle r) in
  get_file t w' = mkFileState (path (get_file t w)) (stripMarkdownCodeBlocks text) (now w) /\
  get_file (other t) w' = get_file (other t) w /\
  disk w' = <[path (get_file t w) := stripMarkdownCodeBlocks text]> (disk w) /\
  inflight w' = rest /\ timers w' = S (timers w) /\ isProcessing w' = isProcessing w /\
  requests w' = requests w /\ LogSucceed (updated_message (get_file t w)) ∈ log w'.
Proof.
  cbv zeta. rewrite (step_settle_written t rest r w text Hin Hr Hro).
  destruct t; cbn -[String.append lookup insert updated_message stripMarkdownCodeBlocks];
    repeat split; set_solver.
Qed.

Lemma handleFileChange_settled_witness :
  inflight sample_world_pending = File2 :: [] /\
  response_text sample_reply = Some "Hello world!" /\
  existsb (String.eqb (path (get_file File2 sample_world_pending))) (readonly sample_world_pending)
    = false /\
  (let w' := step sample_world_pending (Settle sample_reply) in
   get_file File2 w' = mkFileState (path (get_file File2 sample_world_pending))
                         (stripMarkdownCodeBlocks "Hello world!") (now sample_world_pending) /\
   get_file (other File2) w' = get_file (other File2) sample_world_pending /\
   disk w' = <[path (get_file File2 sample_world_pending) := stripMarkdownCodeBlocks "Hello world!"]>
               (disk sample_world_pending) /\
   inflight w' = [] /\ timers w' = S (timers sample_world_pending) /\
   isProcessing w' = isProcessing sample_world_pending /\
   requests w' = requests sample_world_pending /\
   LogSucceed (updated_message (get_file File2 sample_world_pending)) ∈ log w').
Proof.
  assert (H1 : inflight sample_world_pending = File2 :: []) by (vm_compute; reflexivity).
  assert (H2 : response_text sample_reply = Some "Hello world!") by reflexivity.
  assert (H3 : existsb (String.eqb (path (get_file File2 sample_world_pending)))
                 (readonly sample_world_pending) = false) by (vm_compute; reflexivity).
  split; [exact H1|]. split; [exact H2|]. split; [exact H3|].
  exact (handleFileChange_settled File2 [] sample_reply sample_world_pending "Hello world!" H1 H2 H3).
Defined.

(** The watcher's notification for the file the tool has just written is
    not translated back: after a change of one file and the successful
    settlement of its request, a notification for the other file sends no
    request, however many pending releases fire before it arrives. *)
Theorem own_write_not_retranslated (s : side) (w : World) (c : string) (r : api_response)
    (text : string) (n : nat)
    (Hidle : isProcessing w = false) (Hnone : inflight w = [])
    (Hread : disk w !! path (get_file s w) = Some c) (Hdiff : c <> content (get_file s w))
    (Hr : response_text r = Some text)
    (Hro : existsb (String.eqb (path (get_file (other s) w))) (readonly w) = false) :
  let w2 := run_events w [Change s; Settle r] in
  requests w2 = requests w ++ [translateFile_request (mkFileState (path (get_file s w)) c (now w))
                                 (get_file (other s) w) (modelId w)] /\
  requests (run_events w2 (repeat TimerFires n ++ [Change (other s)])) = requests w2.
Proof.
  cbv zeta. rewrite !run_events_cons. cbn [run_events fold_left].
  rewrite (step_change_changed s w c Hidle Hread Hdiff).
  rewrite (step_settle_written (other s) [] r _ text); [| destruct s; cbn; by rewrite Hnone
                                                       | exact Hr | destruct s; exact Hro].
  rewrite run_events_app, run_events_cons. cbn [run_events fold_left].
  split; [destruct s; reflexivity|].
  match goal with |- requests (step (run_events ?W ?l) _) = _ =>
    destruct (run_timers_frame n W) as (Hd & Hf1 & Hf2 & Hq);
    assert (Hg : forall t, get_file t (run_events W l) = get_file t W) by (intros []; assumption)
  end.
  rewrite change_synced_no_request.
  - rewrite Hq. reflexivity.
  - rewrite Hg, Hd. destruct s; cbn -[insert lookup stripMarkdownCodeBlocks]; apply lookup_insert_eq.
Qed.

Lemma own_write_not_retranslated_witness :
  isProcessing sample_world_edited = false /\ inflight sample_world_edited = [] /\
  disk sample_world_edited !! path (get_file File1 sample_world_edited) = Some "Witaj!" /\
  "Witaj!" <> content (get_file File1 sample_world_edited) /\
  response_text sample_reply = Some "Hello world!" /\
  existsb (String.eqb (path (get_file (other File1) sample_world_edited))) (readonly sample_world_edited)
    = false /\
  (let w2 := run_events sample_world_edited [Change File1; Settle sample_reply] in
   requests w2 = requests sample_world_edited
     ++ [translateFile_request (mkFileState (path (get_file File1 sample_world_edited)) "Witaj!"
                                 (now sample_world_edited))
           (get_file (other File1) sample_world_edited) (modelId sample_world_edited)] /\
   requests (run_events w2 (repeat TimerFires 1 ++ [Change (other File1)])) = requests w2).
Proof.
  assert (H1 : isProcessing sample_world_edited = false) by (vm_compute; reflexivity).
  assert (H2 : inflight sample_world_edited = []) by (vm_compute; reflexivity).
  assert (H3 : disk sample_world_edited !! path (get_file File1 sample_world_edited) = Some "Witaj!")
    by (vm_compute; reflexivity).
  assert (H4 : "Witaj!" <> content (get_file File1 sample_world_edited))
    by (vm_compute; discriminate).
  assert (H5 : response_text sample_reply = Some "Hello world!") by reflexivity.
  assert (H6 : existsb (String.eqb (path (get_file (other File1) sample_world_edited)))
                 (readonly sample_world_edited) = false) by (vm_compute; reflexivity).
  do 6 (split; [assumption|]).
  exact (own_write_not_retranslated File1 sample_world_edited "Witaj!" sample_reply "Hello world!" 1
           H1 H2 H3 H4 H5 H6).
Defined.

(** Apart from edits made by other programs, the disk changes only when a
    request settles, and then only at the path of that request's target
    snapshot; change notifications and releases never write. *)
Theorem step_writes_only_target (w : World) (e : event) (He : is_edit e = false) :
  disk (step w e) = disk w \/
  exists r t rest x, e = Settle r /\ inflight w = t :: rest /\
    disk (step w e) = <[path (get_file t w) := x]> (disk w).
Proof. exact (step_disk w e He). Qed.

Lemma step_writes_only_target_witness :
  is_edit (Settle sample_reply) = false /\
  (disk (step sample_world_pending (Settle sample_reply)) = disk sample_world_pending \/
   exists r t rest x, Settle sample_reply = Settle r /\ inflight sample_world_pending = t :: rest /\
     disk (step sample_world_pending (Settle sample_reply))
     = <[path (get_file t sample_world_pending) := x]> (disk sample_world_pending)).
Proof.
  assert (H : is_edit (Settle sample_reply) = false) by reflexivity.
  split; [exact H|]. exact (step_writes_only_target sample_world_pending (Settle sample_reply) H).
Defined.

(* ------------------------------------------------------------------ *)
(** ** main: the state the watchers start from *)

(** After a successful startup the gate, the pending releases and the
    pending requests are as before [main] ran, the snapshots name the two
    file operands and the model is the one chosen.  When both files or
    neither have content, the snapshots hold the files' contents and
    mtimes and nothing was written.  When exactly one has content and the
    answer to the startup request is text, the sanitized answer has been
    written to the empty file and is its snapshot's content, the other
    snapshot holding what was read. *)
Theorem main_startup_state (home : string) (boot : api_response) (args : list string) (w0 : World) :
  fst (main home boot args w0) = inr tt ->
  exists opts wp p1 c1 t1 p2 c2 t2,
    parseArgs args w0 = (inr (opts, [p1; p2]), wp) /\
    disk w0 !! p1 = Some c1 /\ disk w0 !! p2 = Some c2 /\
    mtimes w0 !! p1 = Some t1 /\ mtimes w0 !! p2 = Some t2 /\
    let w1 := snd (main home boot args w0) in
    isProcessing w1 = isProcessing w0 /\ timers w1 = timers w0 /\ inflight w1 = inflight w0 /\
    path (file1 w1) = p1 /\ path (file2 w1) = p2 /\ modelId w1 = MODELS (model opts) /\
    (has_content c1 = has_content c2 ->
       file1 w1 = mkFileState p1 c1 t1 /\ file2 w1 = mkFileState p2 c2 t2 /\ disk w1 = disk w0) /\
    (forall text, response_text boot = Some text ->
       has_content c1 = true -> has_content c2 = false ->
       existsb (String.eqb p2) (readonly w0) = false ->
       file1 w1 = mkFileState p1 c1 t1 /\
       file2 w1 = mkFileState p2 (stripMarkdownCodeBlocks text) (now w0) /\
       disk w1 = <[p2 := stripMarkdownCodeBlocks text]> (disk w0)) /\
    (forall text, response_text boot = Some text ->
       has_content c2 = true -> has_content c1 = false ->
       existsb (String.eqb p1) (readonly w0) = false ->
       file1 w1 = mkFileState p1 (stripMarkdownCodeBlocks text) (now w0) /\
       file2 w1 = mkFileState p2 c2 t2 /\
       disk w1 = <[p1 := stripMarkdownCodeBlocks text]> (disk w0)).
Proof.
  intros H.
  destruct (parseArgs args w0) as [[e|[opts files]] wp] eqn:Hp.
  { unfold main in H. cbv [mbind M_bind] in H. rewrite Hp in H. discriminate. }
  pose proof (parseArgs_ok_world _ _ _ _ _ Hp) as Hw.
  rewrite (main_after_parse _ _ _ _ _ _ _ Hp) in H |- *.
  unfold main_checked in H |- *.
  destruct (help opts); [unfold showHelp, console_log in H; run_H; discriminate|].
  destruct (version opts); [unfold showVersion, console_log in H; run_H; discriminate|].
  destruct files as [|p1 [|p2 [|p3 rest]]];
    try (unfold console_error in H; run_H; discriminate).
  exists opts, wp, p1.
  rewrite Hw in H |- *.
  unfold existsSync, getApiKey, readFileSync, statSync_mtimeMs, setFile, console_log,
    console_error in H |- *.
  run_H.
  destruct (disk w0 !! p1) as [c1|] eqn:E1; run_H; [|congruence].
  destruct (disk w0 !! p2) as [c2|] eqn:E2; run_H; [|congruence].
  destruct (disk w0 !! keyPath home) as [k|] eqn:Ek; run_H; [|congruence].
  rewrite ?E1, ?E2 in H |- *; run_H.
  destruct (mtimes w0 !! p1) as [t1|] eqn:T1; run_H; [|congruence].
  rewrite ?E1, ?E2, ?T1 in H |- *; run_H.
  destruct (mtimes w0 !! p2) as [t2|] eqn:T2; run_H; [|congruence].
  rewrite ?E1, ?E2, ?T1, ?T2 in H |- *; run_H.
  exists c1, t1, p2, c2, t2.
  do 5 (split; [reflexivity||assumption|]).
  destruct (has_content c1) eqn:H1, (has_content c2) eqn:H2; run_H.
  1,4: repeat split; intros; discriminate.
  all: destruct (response_text boot) as [text|] eqn:Hr;
    [ destruct (existsb (String.eqb p1) (readonly w0)) eqn:Hro1,
               (existsb (String.eqb p2) (readonly w0)) eqn:Hro2 | ].
  all: first
    [ rewrite (performTranslation_settle_write_refused _ _ _ _ text Hr); [|cbn; assumption]
    | rewrite (performTranslation_settle_written _ _ _ _ text Hr); [|cbn; assumption]
    | match goal with |- context [performTranslation_settle ?t ?m ?r ?w] =>
        destruct (performTranslation_settle_rejected t m r w Hr) as [err ->] end ].
  all: cbn -[String.append lookup insert stripMarkdownCodeBlocks]; repeat split;
    intros; try discriminate; try congruence.
Qed.

Lemma main_startup_state_witness :
  fst (main "/home/u" sample_reply ["polish.md"; "english.md"]
         (init_world sample_disk sample_mtimes [] 10)) = inr tt /\
  exists opts wp p1 c1 t1 p2 c2 t2,
    parseArgs ["polish.md"; "english.md"] (init_world sample_disk sample_mtimes [] 10)
      = (inr (opts, [p1; p2]), wp) /\
    disk (init_world sample_disk sample_mtimes [] 10) !! p1 = Some c1 /\
    disk (init_world sample_disk sample_mtimes [] 10) !! p2 = Some c2 /\
    mtimes (init_world sample_disk sample_mtimes [] 10) !! p1 = Some t1 /\
    mtimes (init_world sample_disk sample_mtimes [] 10) !! p2 = Some t2 /\
    let w0 := init_world sample_disk sample_mtimes [] 10 in
    let w1 := snd (main "/home/u" sample_reply ["polish.md"; "english.md"] w0) in
    isProcessing w1 = isProcessing w0 /\ timers w1 = timers w0 /\ inflight w1 = inflight w0 /\
    path (file1 w1) = p1 /\ path (file2 w1) = p2 /\ modelId w1 = MODELS (model opts) /\
    (has_content c1 = has_content c2 ->
       file1 w1 = mkFileState p1 c1 t1 /\ file2 w1 = mkFileState p2 c2 t2 /\ disk w1 = disk w0) /\
    (forall text, response_text sample_reply = Some text ->
       has_content c1 = true -> has_content c2 = false ->
       existsb (String.eqb p2) (readonly w0) = false ->
       file1 w1 = mkFileState p1 c1 t1 /\
       file2 w1 = mkFileState p2 (stripMarkdownCodeBlocks text) (now w0) /\
       disk w1 = <[p2 := stripMarkdownCodeBlocks text]> (disk w0)) /\
    (forall text, response_text sample_reply = Some text ->
       has_content c2 = true -> has_content c1 = false ->
       existsb (String.eqb p1) (readonly w0) = false ->
       file1 w1 = mkFileState p1 (stripMarkdownCodeBlocks text) (now w0) /\
       file2 w1 = mkFileState p2 c2 t2 /\
       disk w1 = <[p1 := stripMarkdownCodeBlocks text]> (disk w0)).
Proof.
  assert (H : fst (main "/home/u" sample_reply ["polish.md"; "english.md"]
                     (init_world sample_disk sample_mtimes [] 10)) = inr tt)
    by (vm_compute; reflexivity).
  split; [exact H|]. exact (main_startup_state _ _ _ _ H).
Defined.
